(** * ContinuousAudit: the JavaScript validation script, [validate_js.py]

    A shallow embedding of the lint engine of [validate_js.py] and the
    properties its specification states about it.

    Text.  A Python [str] is modelled as a Rocq [string] whose characters are
    read as the code points U+0000 .. U+00FF; the character classes of the
    [re] module ([\w], [\s], [\b]) and of [str.strip] are the ones CPython
    uses on that range.  Python integers are unbounded: counts and depths are
    [Z], line numbers and block ordinals are [nat].

    Effects.  A Python call either returns or raises: functions that call
    something that can raise live in the [outcome] monad.  What the script
    prints is not modelled; the list [all_errors] it prints from is. *)

From Stdlib Require Import String Ascii List ZArith NArith Arith Bool Lia.
From Stdlib Require Import Sorted DecimalString Permutation.
Import ListNotations.

Local Open Scope list_scope.
Local Open Scope string_scope.

(** ** Outcomes of a Python call *)

Inductive outcome (A : Type) : Type :=
| Returned (a : A)
| Raised (exc : string).

Arguments Returned {A} a.
Arguments Raised {A} exc.

Definition bind {A B : Type} (c : outcome A) (k : A -> outcome B) : outcome B :=
  match c with
  | Returned a => k a
  | Raised e => Raised e
  end.

Notation "x <- c ;; k" := (bind c (fun x => k))
  (at level 61, c at next level, right associativity).

(** A [for] loop whose body may raise: the loop stops at the first exception. *)
Fixpoint for_each {A S : Type} (body : S -> A -> outcome S) (items : list A) (s : S)
  : outcome S :=
  match items with
  | [] => Returned s
  | x :: rest => s' <- body s x ;; for_each body rest s'
  end.

(** [enumerate(items, start)] *)
Fixpoint enumerate {A : Type} (items : list A) (start : nat) : list (nat * A) :=
  match items with
  | [] => []
  | x :: rest => (start, x) :: enumerate rest (S start)
  end.

(** ** Characters and the [str] methods the script calls *)

Definition code_point (c : ascii) : N := N_of_ascii c.

Definition in_range (lo hi : N) (c : ascii) : bool :=
  ((lo <=? code_point c) && (code_point c <=? hi))%N.

(** [str.isspace] on one character, which is also the class [\s] of [re]. *)
Definition is_space (c : ascii) : bool :=
  in_range 9 13 c || in_range 28 32 c || in_range 133 133 c || in_range 160 160 c.

(** The class [\w] of [re] for [str] patterns: alphanumeric or underscore. *)
Definition is_word (c : ascii) : bool :=
  in_range 48 57 c || in_range 65 90 c || in_range 95 95 c || in_range 97 122 c
  || in_range 170 170 c || in_range 178 179 c || in_range 181 181 c
  || in_range 185 186 c || in_range 188 190 c || in_range 192 214 c
  || in_range 216 246 c || in_range 248 255 c.

Definition newline : ascii := "010"%char.

(** [s.count(c)] for a one-character [c]. *)
Fixpoint count (c : ascii) (s : string) : Z :=
  match s with
  | EmptyString => 0
  | String x rest => ((if Ascii.eqb x c then 1 else 0) + count c rest)%Z
  end.

(** [s.split(sep)] for a one-character [sep]: never the empty list. *)
Fixpoint split (sep : ascii) (s : string) : list string :=
  match s with
  | EmptyString => [EmptyString]
  | String x rest =>
      if Ascii.eqb x sep then EmptyString :: split sep rest
      else match split sep rest with
           | first :: others => String x first :: others
           | [] => [String x EmptyString]
           end
  end.

Fixpoint lstrip (s : string) : string :=
  match s with
  | EmptyString => EmptyString
  | String x rest => if is_space x then lstrip rest else s
  end.

Fixpoint rstrip (s : string) : string :=
  match s with
  | EmptyString => EmptyString
  | String x rest =>
      match rstrip rest with
      | EmptyString => if is_space x then EmptyString else String x EmptyString
      | kept => String x kept
      end
  end.

(** [s.strip()] *)
Definition strip (s : string) : string := rstrip (lstrip s).

(** [str(n)] for a non-negative integer. *)
Definition str_of_nat (n : nat) : string := NilZero.string_of_uint (Nat.to_uint n).
Definition str_of_N (n : N) : string := NilZero.string_of_uint (N.to_uint n).

(** ** The regular expressions of the script *)

(** The longest prefix of [s] whose characters all satisfy [p], and the rest. *)
Fixpoint span (p : ascii -> bool) (s : string) : string * string :=
  match s with
  | EmptyString => (EmptyString, EmptyString)
  | String x rest =>
      if p x then let (run, tl) := span p rest in (String x run, tl)
      else (EmptyString, s)
  end.

(** [s] without the literal [lit] at its front, when it starts with it. *)
Fixpoint strip_prefix (lit s : string) : option string :=
  match lit, s with
  | EmptyString, _ => Some s
  | String a lit', String b s' =>
      if Ascii.eqb a b then strip_prefix lit' s' else None
  | String _ _, EmptyString => None
  end.

(** The first occurrence of [needle] in [s]: what is before it and after it. *)
Fixpoint find_sub (needle s : string) : option (string * string) :=
  match strip_prefix needle s with
  | Some after => Some (EmptyString, after)
  | None =>
      match s with
      | EmptyString => None
      | String x rest =>
          match find_sub needle rest with
          | Some (before, after) => Some (String x before, after)
          | None => None
          end
      end
  end.

(** A match object: [m.start()], [m.end()], [m.group(0)] and the captures. *)
Record rmatch : Type := mkMatch {
  m_start : nat;
  m_end : nat;
  m_text : string;
  m_groups : list string
}.

(** [m.group(n)]: raises [IndexError] when the pattern has no group [n]. *)
Definition group (m : rmatch) (n : nat) : outcome string :=
  match n with
  | O => Returned (m_text m)
  | S k =>
      match nth_error (m_groups m) k with
      | Some g => Returned g
      | None => Raised "IndexError: no such group"
      end
  end.

Definition is_word_at (c : option ascii) : bool :=
  match c with
  | Some x => is_word x
  | None => false
  end.

(** [\b] between the character before the position and the one at it. *)
Definition word_boundary (prev next : option ascii) : bool :=
  xorb (is_word_at prev) (is_word_at next).

(** The pattern [\b<kw>\s+(\w+)] tried at the front of [s], the boundary
    apart: the keyword, the longest run of white space, the longest run of
    word characters, both runs non-empty.  The two classes are disjoint, so
    giving back part of a run never turns a failure into a match. *)
Definition decl_here (kw s : string) : option (string * string) :=
  match strip_prefix kw s with
  | None => None
  | Some after_kw =>
      let (ws, after_ws) := span is_space after_kw in
      match ws with
      | EmptyString => None
      | _ =>
          let (name, _) := span is_word after_ws in
          match name with
          | EmptyString => None
          | _ => Some (ws, name)
          end
      end
  end.

(** [re.finditer(r'\b<kw>\s+(\w+)', line)] from position [pos]: the matches
    from left to right, without overlap.  [prev] is the character before
    [pos]; [skip] counts the characters of the last match still to pass. *)
Fixpoint finditer_from (kw : string) (pos : nat) (prev : option ascii) (skip : nat)
  (s : string) : list rmatch :=
  match s with
  | EmptyString => []
  | String x rest =>
      match skip with
      | S k => finditer_from kw (S pos) (Some x) k rest
      | O =>
          if word_boundary prev (Some x) then
            match decl_here kw s with
            | Some (ws, name) =>
                let len := String.length kw + String.length ws + String.length name in
                mkMatch pos (pos + len) (kw ++ ws ++ name) [name]
                  :: finditer_from kw (S pos) (Some x) (len - 1) rest
            | None => finditer_from kw (S pos) (Some x) 0 rest
            end
          else finditer_from kw (S pos) (Some x) 0 rest
      end
  end.

Definition finditer (kw line : string) : list rmatch :=
  finditer_from kw 0 None 0 line.

(** The pattern [<script[^>]*>(.*?)</script>] (with [re.DOTALL]) tried at the
    front of [s]: the captured body and the length of the whole match. *)
Definition script_here (s : string) : option (string * nat) :=
  match strip_prefix "<script" s with
  | None => None
  | Some after_tag =>
      let (attrs, after_attrs) := span (fun c => negb (Ascii.eqb c ">")) after_tag in
      match after_attrs with
      | String _ inner =>
          match find_sub "</script>" inner with
          | Some (body, _) => Some (body, 7 + String.length attrs + 1 + String.length body + 9)
          | None => None
          end
      | EmptyString => None
      end
  end.

Fixpoint findall_scripts (skip : nat) (s : string) : list string :=
  match s with
  | EmptyString => []
  | String _ rest =>
      match skip with
      | S k => findall_scripts k rest
      | O =>
          match script_here s with
          | Some (body, len) => body :: findall_scripts (len - 1) rest
          | None => findall_scripts 0 rest
          end
      end
  end.

(** [extract_javascript_from_html] *)
Definition extract_javascript_from_html (html_content : string) : list string :=
  findall_scripts 0 html_content.

(** ** The declaration index: a [defaultdict(list)] in insertion order *)

(** [(line_num, decl_type, line.strip())] *)
Definition occurrence : Type := nat * string * string.

Definition occ_line (o : occurrence) : nat := fst (fst o).

Definition declaration_index : Type := list (string * list occurrence).

(** [d[key].append(o)]: a key not seen before enters the dictionary last. *)
Fixpoint dd_append (d : declaration_index) (key : string) (o : occurrence)
  : declaration_index :=
  match d with
  | [] => [(key, [o])]
  | (k, occs) :: rest =>
      if String.eqb k key then (k, (occs ++ [o])%list) :: rest
      else (k, occs) :: dd_append rest key o
  end.

(** ** The defects: the dictionaries the checkers append to [errors] *)

Record error : Type := mkError {
  err_type : string;
  err_variable : option string;
  err_occurrences : option (list occurrence);
  err_message : string
}.

(** ** [check_duplicate_declarations] *)

(** The three patterns, each [\b<kw>\s+(\w+)], with their [decl_type]. *)
Definition patterns : list (string * string) :=
  [("let", "let"); ("const", "const"); ("var", "var")].

(** The body of [for match in matches]. *)
Definition record_match (line_num : nat) (decl_type line : string)
  (global_declarations : declaration_index) (m : rmatch) : outcome declaration_index :=
  var_name <- group m 1 ;;
  Returned (dd_append global_declarations var_name (line_num, decl_type, strip line)).

(** The body of [for pattern, decl_type in patterns]. *)
Definition scan_pattern (line_num : nat) (line : string)
  (global_declarations : declaration_index) (p : string * string)
  : outcome declaration_index :=
  let (pattern, decl_type) := p in
  for_each (record_match line_num decl_type line) (finditer pattern line)
    global_declarations.

(** The body of [for line_num, line in enumerate(lines, 1)], on the pair
    [(brace_depth, global_declarations)]. *)
Definition scan_line (st : Z * declaration_index) (numbered : nat * string)
  : outcome (Z * declaration_index) :=
  let (brace_depth, global_declarations) := st in
  let (line_num, line) := numbered in
  let brace_depth := (brace_depth + (count "{" line - count "}" line))%Z in
  let line_depth := (brace_depth - count "{" line + count "}" line)%Z in
  if (line_depth <=? 0)%Z then
    global_declarations <- for_each (scan_pattern line_num line) patterns global_declarations ;;
    Returned (brace_depth, global_declarations)
  else Returned (brace_depth, global_declarations).

Definition duplicate_message (var_name : string) (occurrences : list occurrence) : string :=
  "Variable '" ++ var_name ++ "' is declared " ++ str_of_nat (List.length occurrences)
  ++ " times in global scope".

(** The loop [for var_name, occurrences in global_declarations.items()]. *)
Fixpoint duplicate_errors (global_declarations : declaration_index) : list error :=
  match global_declarations with
  | [] => []
  | (var_name, occurrences) :: rest =>
      if (1 <? List.length occurrences)%nat then
        mkError "duplicate_declaration" (Some var_name) (Some occurrences)
          (duplicate_message var_name occurrences) :: duplicate_errors rest
      else duplicate_errors rest
  end.

(** The index after the scan of all lines. *)
Definition scan_lines (js_code : string) : outcome (Z * declaration_index) :=
  let lines := split newline js_code in
  for_each scan_line (enumerate lines 1) (0%Z, []).

Definition check_duplicate_declarations (js_code : string) : outcome (list error) :=
  st <- scan_lines js_code ;;
  Returned (duplicate_errors (snd st)).

(** ** [check_syntax_errors] *)

Definition unmatched_message (what : string) (n : Z) : string :=
  "Unmatched " ++ what ++ ": " ++ str_of_N (Z.abs_N n) ++ " "
  ++ (if (n >? 0)%Z then "opening" else "closing") ++ " " ++ what.

(** One of the three [if ..._count != 0: errors.append(...)] blocks. *)
Definition unmatched (what : string) (n : Z) : list error :=
  if (n =? 0)%Z then []
  else [mkError ("unmatched_" ++ what) None None (unmatched_message what n)].

Definition check_syntax_errors (js_code : string) : outcome (list error) :=
  let brace_count := (count "{" js_code - count "}" js_code)%Z in
  let paren_count := (count "(" js_code - count ")" js_code)%Z in
  let bracket_count := (count "[" js_code - count "]" js_code)%Z in
  Returned (unmatched "braces" brace_count
            ++ unmatched "parentheses" paren_count
            ++ unmatched "brackets" bracket_count)%list.

(** ** [validate_html_file] and [main] *)

Definition tag_block (i : nat) (errs : list error) : list (nat * error) :=
  map (fun err => (i, err)) errs.

(** The body of [for i, script in enumerate(scripts, 1)]. *)
Definition check_block (all_errors : list (nat * error)) (numbered : nat * string)
  : outcome (list (nat * error)) :=
  let (i, script) := numbered in
  dup_errors <- check_duplicate_declarations script ;;
  let all_errors :=
    match dup_errors with
    | [] => all_errors
    | _ => (all_errors ++ tag_block i dup_errors)%list
    end in
  syntax_errors <- check_syntax_errors script ;;
  let all_errors :=
    match syntax_errors with
    | [] => all_errors
    | _ => (all_errors ++ tag_block i syntax_errors)%list
    end in
  Returned all_errors.

(** The list [all_errors] of [validate_html_file] for the given blocks. *)
Definition collect_errors (scripts : list string) : outcome (list (nat * error)) :=
  for_each check_block (enumerate scripts 1) [].

(** [validate_html_file], on the text read from the file. *)
Definition validate_html_file (html_content : string) : outcome bool :=
  let scripts := extract_javascript_from_html html_content in
  match scripts with
  | [] => Returned true
  | _ =>
      all_errors <- collect_errors scripts ;;
      match all_errors with
      | [] => Returned true
      | _ => Returned false
      end
  end.

(** [sys.exit(status)]: the run ends with this exit status. *)
Definition sys_exit (status : Z) : outcome Z := Returned status.

(** [main], on the content of the templates directory: [None] when the
    directory does not exist, else the texts of its [*.html] files. *)
Definition main (templates : option (list string)) : outcome Z :=
  match templates with
  | None => sys_exit 1
  | Some [] => sys_exit 0
  | Some html_files =>
      all_valid <- for_each
        (fun all_valid html_file =>
           ok <- validate_html_file html_file ;;
           Returned (if negb ok then false else all_valid))
        html_files true ;;
      if (all_valid : bool) then sys_exit 0 else sys_exit 1
  end.

(** ** The scenarios of the specification *)

(** ["\n".join(lines)] *)
Definition join_lines (lines : list string) : string :=
  String.concat (String newline EmptyString) lines.

Definition scenario_a : string :=
  join_lines ["let a = 1;"; "function f(){ let a = 2; }"; "let a = 3;"].

Definition scenario_dollar : string :=
  join_lines ["let $ = 1;"; "let $ = 2;"].

(** ** What the specification calls things *)

(** Opens minus closes of one line. *)
Definition delta (line : string) : Z := (count "{" line - count "}" line)%Z.

Definition sum_deltas (lines : list string) : Z := fold_right Z.add 0%Z (map delta lines).

(** [depth_before]: the braces opened minus the braces closed on the lines
    [1 .. i-1] of the text, for the 1-based line number [i]. *)
Definition depth_before (lines : list string) (i : nat) : Z :=
  sum_deltas (firstn (i - 1) lines).

(** An occurrence together with the identifier it is filed under. *)
Definition event : Type := string * occurrence.

Definition event_line (e : event) : nat := occ_line (snd e).

(** The occurrences one line gives, in the order the scan meets them:
    pattern by pattern, and for a pattern from left to right. *)
Definition line_events (line_num : nat) (line : string) : list event :=
  flat_map
    (fun p : string * string =>
       map (fun name => (name, (line_num, snd p, strip line)))
           (flat_map m_groups (finditer (fst p) line)))
    patterns.

(** The occurrences of the lines whose [depth_before] is at most 0. *)
Definition top_level_events (lines : list string) : list event :=
  flat_map
    (fun numbered : nat * string =>
       if (depth_before lines (fst numbered) <=? 0)%Z
       then line_events (fst numbered) (snd numbered) else [])
    (enumerate lines 1).

(** The occurrences filed under [name], in scan order. *)
Definition occurrences_of (name : string) (events : list event) : list occurrence :=
  map snd (filter (fun e : event => String.eqb (fst e) name) events).

(** The index a sequence of appends builds. *)
Definition index_events (d : declaration_index) (events : list event) : declaration_index :=
  fold_left (fun d (e : event) => dd_append d (fst e) (snd e)) events d.

(** [d.get(key)] *)
Fixpoint lookup (d : declaration_index) (key : string) : option (list occurrence) :=
  match d with
  | [] => None
  | (k, occs) :: rest => if String.eqb k key then Some occs else lookup rest key
  end.

(** The line of the first occurrence of an index entry or of a defect. *)
Definition first_line (occs : list occurrence) : nat :=
  match occs with
  | [] => 0
  | o :: _ => occ_line o
  end.

Definition error_first_line (e : error) : nat :=
  match err_occurrences e with
  | Some occs => first_line occs
  | None => 0
  end.

(** The three delimiter kinds, in the order the balance checker takes them. *)
Inductive delimiter : Type := Brace | Paren | Bracket.

Definition all_delimiters : list delimiter := [Brace; Paren; Bracket].

Definition opener (k : delimiter) : ascii :=
  match k with Brace => "{" | Paren => "(" | Bracket => "[" end%char.

Definition closer (k : delimiter) : ascii :=
  match k with Brace => "}" | Paren => ")" | Bracket => "]" end%char.

Definition plural (k : delimiter) : string :=
  match k with Brace => "braces" | Paren => "parentheses" | Bracket => "brackets" end.

(** Net delimiter count: opens minus closes over the whole block. *)
Definition net (k : delimiter) (text : string) : Z :=
  (count (opener k) text - count (closer k) text)%Z.

(** The number of characters of [s] equal to [c], by filtering. *)
Definition occurrences_of_char (c : ascii) (s : string) : nat :=
  List.length (filter (Ascii.eqb c) (list_ascii_of_string s)).

(** Is the defect [e] about the identifier [name]? *)
Definition error_is_for (name : string) (e : error) : bool :=
  match err_variable e with
  | Some v => String.eqb v name
  | None => false
  end.

(** The duplicate-declaration defect for [name] with these occurrences. *)
Definition duplicate_error (name : string) (occs : list occurrence) : error :=
  mkError "duplicate_declaration" (Some name) (Some occs) (duplicate_message name occs).

Definition keys (d : declaration_index) : list string := map fst d.

Definition first_lines (d : declaration_index) : list nat :=
  map (fun kv : string * list occurrence => first_line (snd kv)) d.

(** What the line loop keeps true of the index up to line [bound]: no
    identifier without an occurrence, no occurrence beyond [bound], and the
    identifiers in the order of their first lines. *)
Definition index_ok (bound : nat) (d : declaration_index) : Prop :=
  Forall (fun kv : string * list occurrence =>
            snd kv <> [] /\ Forall (fun o => occ_line o <= bound) (snd kv)) d
  /\ StronglySorted le (first_lines d).

(** ** The shape of a match *)

Fixpoint all_chars (p : ascii -> bool) (s : string) : Prop :=
  match s with
  | EmptyString => True
  | String x rest => p x = true /\ all_chars p rest
  end.

Definition first_char (s : string) : option ascii :=
  match s with
  | EmptyString => None
  | String x _ => Some x
  end.

(** The last character of [pre], or [prev] when [pre] is empty. *)
Fixpoint char_before (prev : option ascii) (pre : string) : option ascii :=
  match pre with
  | EmptyString => prev
  | String x rest => char_before (Some x) rest
  end.

(** A non-empty run of characters of the class [p] that nothing of the class
    follows. *)
Definition maximal_run (p : ascii -> bool) (run post : string) : Prop :=
  run <> EmptyString /\ all_chars p run /\ is_word_at (first_char post) = false.

(** [m] is a match of [\b<kw>\s+(\w+)] in [line]: at [m.start()] a word
    boundary, then the keyword, white space, and the captured name, which is
    a maximal run of word characters ending at [m.end()]. *)
Definition match_shape (kw line : string) (m : rmatch) : Prop :=
  exists pre ws name post,
    line = pre ++ kw ++ ws ++ name ++ post
    /\ m_start m = String.length pre
    /\ m_end m = String.length pre + String.length kw + String.length ws + String.length name
    /\ m_text m = kw ++ ws ++ name
    /\ m_groups m = [name]
    /\ word_boundary (char_before None pre) (first_char (kw ++ ws ++ name ++ post)) = true
    /\ ws <> EmptyString /\ all_chars is_space ws
    /\ maximal_run is_word name post.

(** A name the checker can file: not empty, word characters only. *)
Definition word_name (name : string) : Prop :=
  (exists c rest, name = String c rest /\ is_word c = true) /\ all_chars is_word name.

(** ** The defects as the specification describes them *)

Definition error_type_of (k : delimiter) : string := "unmatched_" ++ plural k.

Definition has_type (ty : string) (e : error) : bool := String.eqb (err_type e) ty.

(** UnbalancedDelimiter{kind, net count, direction} as the checker writes it:
    the magnitude in decimal, [opening] for excess openers and [closing] for
    excess closers. *)
Definition unbalanced_defect (k : delimiter) (magnitude : N) (excess_openers : bool) : error :=
  mkError (error_type_of k) None None
    ("Unmatched " ++ plural k ++ ": " ++ str_of_N magnitude ++ " "
     ++ (if excess_openers then "opening" else "closing") ++ " " ++ plural k).

(** The delimiter kinds that are out of balance in [text], in checker order. *)
Definition unbalanced_kinds (text : string) : list delimiter :=
  filter (fun k => negb (net k text =? 0)%Z) all_delimiters.

(** The defect lists of one block, without the monad. *)
Definition dup_defects (script : string) : list error :=
  duplicate_errors (index_events [] (top_level_events (split newline script))).

Definition syn_defects (script : string) : list error :=
  flat_map
    (fun k => unbalanced_defect k (Z.abs_N (net k script)) (0 <? net k script)%Z
              :: nil)
    (unbalanced_kinds script).

Definition block_defects (script : string) : list error :=
  (dup_defects script ++ syn_defects script)%list.

Definition block_clean (script : string) : bool :=
  match block_defects script with
  | [] => true
  | _ => false
  end.

Definition document_clean (html_content : string) : bool :=
  forallb block_clean (extract_javascript_from_html html_content).

(** ** Invocations, one after the other

    The names a checker assigns ([errors], [global_declarations], ...) are
    kept here in a namespace that outlives the invocation: the next
    invocation of the checker starts on what the last one left in it, and
    the statements of the body are run on it in the order of the source.
    The names the [for] statements bind are set by them before any use and
    are left out. *)

(** The names of [check_duplicate_declarations]. *)
Record dup_names : Type := mkDupNames {
  dn_errors : list error;
  dn_global_declarations : declaration_index;
  dn_patterns : list (string * string);
  dn_lines : list string;
  dn_brace_depth : Z
}.

Definition set_dn_errors (v : list error) (n : dup_names) : dup_names :=
  mkDupNames v (dn_global_declarations n) (dn_patterns n) (dn_lines n) (dn_brace_depth n).

Definition set_dn_global_declarations (v : declaration_index) (n : dup_names) : dup_names :=
  mkDupNames (dn_errors n) v (dn_patterns n) (dn_lines n) (dn_brace_depth n).

Definition set_dn_patterns (v : list (string * string)) (n : dup_names) : dup_names :=
  mkDupNames (dn_errors n) (dn_global_declarations n) v (dn_lines n) (dn_brace_depth n).

Definition set_dn_lines (v : list string) (n : dup_names) : dup_names :=
  mkDupNames (dn_errors n) (dn_global_declarations n) (dn_patterns n) v (dn_brace_depth n).

Definition set_dn_brace_depth (v : Z) (n : dup_names) : dup_names :=
  mkDupNames (dn_errors n) (dn_global_declarations n) (dn_patterns n) (dn_lines n) v.

(** The body of the line loop (l.37-50), on the namespace. *)
Definition dup_line_body (n : dup_names) (numbered : nat * string) : outcome dup_names :=
  let (line_num, line) := numbered in
  let n := set_dn_brace_depth (dn_brace_depth n + (count "{" line - count "}" line))%Z n in
  let line_depth := (dn_brace_depth n - count "{" line + count "}" line)%Z in
  if (line_depth <=? 0)%Z then
    global_declarations <-
      for_each (scan_pattern line_num line) (dn_patterns n) (dn_global_declarations n) ;;
    Returned (set_dn_global_declarations global_declarations n)
  else Returned n.

(** The body of the loop over the items of the index (l.53-60). *)
Definition dup_report_body (n : dup_names) (item : string * list occurrence) : dup_names :=
  let (var_name, occurrences) := item in
  if (1 <? List.length occurrences)%nat then
    set_dn_errors
      (dn_errors n
       ++ [mkError "duplicate_declaration" (Some var_name) (Some occurrences)
             (duplicate_message var_name occurrences)])%list n
  else n.

(** An invocation of [check_duplicate_declarations] on the namespace [n]:
    the namespace it leaves and the list it returns. *)
Definition invoke_check_duplicate_declarations (n : dup_names) (js_code : string)
  : outcome (dup_names * list error) :=
  let n := set_dn_errors [] n in
  let n := set_dn_global_declarations [] n in
  let n := set_dn_patterns [("let", "let"); ("const", "const"); ("var", "var")] n in
  let n := set_dn_lines (split newline js_code) n in
  let n := set_dn_brace_depth 0%Z n in
  n <- for_each dup_line_body (enumerate (dn_lines n) 1) n ;;
  let n := fold_left dup_report_body (dn_global_declarations n) n in
  Returned (n, dn_errors n).

(** The names of [check_syntax_errors]. *)
Record syn_names : Type := mkSynNames {
  sn_errors : list error;
  sn_brace_count : Z;
  sn_paren_count : Z;
  sn_bracket_count : Z
}.

(** [if count != 0: errors.append(...)] *)
Definition append_unmatched (what : string) (n : Z) (errors : list error) : list error :=
  if negb (n =? 0)%Z then
    (errors ++ [mkError ("unmatched_" ++ what) None None (unmatched_message what n)])%list
  else errors.

(** An invocation of [check_syntax_errors] on the namespace [n]. *)
Definition invoke_check_syntax_errors (n : syn_names) (js_code : string)
  : outcome (syn_names * list error) :=
  let n := mkSynNames [] (sn_brace_count n) (sn_paren_count n) (sn_bracket_count n) in
  let n := mkSynNames (sn_errors n) (count "{" js_code - count "}" js_code)%Z
             (sn_paren_count n) (sn_bracket_count n) in
  let n := mkSynNames (append_unmatched "braces" (sn_brace_count n) (sn_errors n))
             (sn_brace_count n) (sn_paren_count n) (sn_bracket_count n) in
  let n := mkSynNames (sn_errors n) (sn_brace_count n)
             (count "(" js_code - count ")" js_code)%Z (sn_bracket_count n) in
  let n := mkSynNames (append_unmatched "parentheses" (sn_paren_count n) (sn_errors n))
             (sn_brace_count n) (sn_paren_count n) (sn_bracket_count n) in
  let n := mkSynNames (sn_errors n) (sn_brace_count n) (sn_paren_count n)
             (count "[" js_code - count "]" js_code)%Z in
  let n := mkSynNames (append_unmatched "brackets" (sn_bracket_count n) (sn_errors n))
             (sn_brace_count n) (sn_paren_count n) (sn_bracket_count n) in
  Returned (n, sn_errors n).

(** What the invocations so far have left behind. *)
Record interpreter : Type := mkInterpreter {
  dup_ns : dup_names;
  syn_ns : syn_names
}.

Inductive invocation : Type :=
| CheckDuplicates (js_code : string)
| CheckSyntax (js_code : string).

(** One invocation: the state it leaves and what it returns.  An exception
    would leave the names as they were on entry. *)
Definition run_invocation (s : interpreter) (c : invocation)
  : interpreter * outcome (list error) :=
  match c with
  | CheckDuplicates js_code =>
      match invoke_check_duplicate_declarations (dup_ns s) js_code with
      | Returned (n, errs) => (mkInterpreter n (syn_ns s), Returned errs)
      | Raised e => (s, Raised e)
      end
  | CheckSyntax js_code =>
      match invoke_check_syntax_errors (syn_ns s) js_code with
      | Returned (n, errs) => (mkInterpreter (dup_ns s) n, Returned errs)
      | Raised e => (s, Raised e)
      end
  end.

(** A sequence of invocations: the state after the last one. *)
Definition run_invocations (s : interpreter) (cs : list invocation) : interpreter :=
  fold_left (fun s c => fst (run_invocation s c)) cs s.

(** The documents a run has: none when the templates directory is missing. *)
Definition documents_of (templates : option (list string)) : list string :=
  match templates with
  | Some html_files => html_files
  | None => []
  end.

(** ** Declarations of the embedded language, in the words of the specification

    A declaration is "the keyword token followed by whitespace then an
    identifier token".  An identifier token of JavaScript is a run of
    identifier characters (the word characters and the dollar sign) that
    does not begin with a digit. *)

Definition is_identifier_char (c : ascii) : bool := is_word c || Ascii.eqb c "$".

Definition is_digit (c : ascii) : bool := in_range 48 57 c.

Definition is_identifier_char_at (c : option ascii) : bool :=
  match c with
  | Some x => is_identifier_char x
  | None => false
  end.

Definition spec_declaration_here (kw s : string) : option (string * string) :=
  match strip_prefix kw s with
  | None => None
  | Some after_kw =>
      let (ws, after_ws) := span is_space after_kw in
      match ws with
      | EmptyString => None
      | _ =>
          let (name, _) := span is_identifier_char after_ws in
          match name with
          | EmptyString => None
          | String c _ => if is_digit c then None else Some (ws, name)
          end
      end
  end.

(** The identifiers the keyword [kw] declares on a line, from left to right. *)
Fixpoint spec_declared_from (kw : string) (prev : option ascii) (skip : nat) (s : string)
  : list string :=
  match s with
  | EmptyString => []
  | String x rest =>
      match skip with
      | S k => spec_declared_from kw (Some x) k rest
      | O =>
          if xorb (is_identifier_char_at prev) (is_identifier_char x) then
            match spec_declaration_here kw s with
            | Some (ws, name) =>
                name :: spec_declared_from kw (Some x)
                          (String.length kw + String.length ws + String.length name - 1) rest
            | None => spec_declared_from kw (Some x) 0 rest
            end
          else spec_declared_from kw (Some x) 0 rest
      end
  end.

Definition declaration_keywords : list string := ["let"; "const"; "var"].

(** Where [name] is declared in [text], as (line, keyword): at top level
    ([depth_before] at most 0) for [top_level = true], nested otherwise. *)
Definition spec_declarations (top_level : bool) (text name : string) : list (nat * string) :=
  let lines := split newline text in
  flat_map
    (fun numbered : nat * string =>
       if Bool.eqb (depth_before lines (fst numbered) <=? 0)%Z top_level then
         flat_map
           (fun kw =>
              map (fun _ => (fst numbered, kw))
                  (filter (String.eqb name)
                          (spec_declared_from kw None 0 (snd numbered))))
           declaration_keywords
       else [])
    (enumerate lines 1).

Definition scenario_dollar_suffix : string :=
  join_lines ["let a$ = 1;"; "let a = 2;"].

Definition scenario_mixed : string :=
  join_lines ["var total = 0;"; "function f() {"; "  let total = 1;"; "}"; "const total = 2;"].

(** ** Vocabulary for the extraction *)

(** Every character but [c]. *)
Definition other_than (c : ascii) (x : ascii) : bool := negb (Ascii.eqb x c).

(** Does [needle] occur in [s]? *)
Definition occurs (needle s : string) : bool :=
  match find_sub needle s with
  | Some _ => true
  | None => false
  end.

(** The characters of the extracted blocks. *)
Definition total_length (blocks : list string) : nat :=
  list_sum (map String.length blocks).

(** One of the six characters the balance checker counts. *)
Definition is_delimiter (c : ascii) : bool :=
  existsb (Ascii.eqb c) ["{"; "}"; "("; ")"; "["; "]"]%char.

Definition not_delimiter (c : ascii) : bool := negb (is_delimiter c).

(** Is the entry of [all_errors] about block [i]? *)
Definition tagged_with (i : nat) (entry : nat * error) : bool := Nat.eqb (fst entry) i.

(** * The pre-commit linter, [lint_changes.py]

    The linter calls [open], [ast.parse], [subprocess.run] and
    [Path.exists]; what these give for a file is an input of the model.
    The exceptions they raise are instances of [Exception]. *)

Module LintChanges.

(** The classes of exceptions the handlers tell apart:
    [TabError] is an [IndentationError], which is a [SyntaxError]. *)
Inductive exc_class : Type :=
| SyntaxError
| IndentationError
| TabError
| OtherException.

(** An exception: its class, [e.lineno], [e.msg] and [str(e)]. *)
Record py_exception : Type := mkException {
  exc_type : exc_class;
  lineno : option nat;
  msg : string;
  exc_str : string
}.

(** [isinstance(e, cls)] *)
Definition isinstance (e : py_exception) (cls : exc_class) : bool :=
  match cls, exc_type e with
  | SyntaxError, (SyntaxError | IndentationError | TabError) => true
  | IndentationError, (IndentationError | TabError) => true
  | TabError, TabError => true
  | OtherException, OtherException => true
  | _, _ => false
  end.

(** What a [try] body did: it ended, or it raised. *)
Inductive attempt (A : Type) : Type :=
| Done (a : A)
| Threw (e : py_exception).

Arguments Done {A} a.
Arguments Threw {A} e.

(** The [CompletedProcess] of [subprocess.run]. *)
Record completed_process : Type := mkCompleted {
  returncode : Z;
  stdout : string;
  stderr : string
}.

(** [f"{x}"] for an [int] or [None], and for a [str] or [None]. *)
Definition format_lineno (n : option nat) : string :=
  match n with
  | Some k => str_of_nat k
  | None => "None"
  end.

Definition format_error (error : option string) : string :=
  match error with
  | Some text => text
  | None => "None"
  end.

(** [s.endswith(suffix)]: a tail of [s] is [suffix]. *)
Fixpoint endswith (s suffix : string) : bool :=
  String.eqb s suffix
  || match s with
     | EmptyString => false
     | String _ rest => endswith rest suffix
     end.

(** [check_python_syntax], on what [open], [f.read] and [ast.parse] did. *)
Definition check_python_syntax (parsed : attempt unit) : bool * option string :=
  match parsed with
  | Done _ => (true, None)
  | Threw e =>
      if isinstance e SyntaxError then
        (false, Some ("SyntaxError at line " ++ format_lineno (lineno e) ++ ": " ++ msg e))
      else if isinstance e IndentationError then
        (false, Some ("IndentationError at line " ++ format_lineno (lineno e) ++ ": "
                      ++ msg e))
      else (false, Some ("Error: " ++ exc_str e))
  end.

(** [check_imports], on what [subprocess.run] of [py_compile] did. *)
Definition check_imports (ran : attempt completed_process) : bool * option string :=
  match ran with
  | Done result =>
      if negb (returncode result =? 0)%Z then (false, Some (stderr result))
      else (true, None)
  | Threw e => (false, Some ("Import check failed: " ++ exc_str e))
  end.

(** [get_staged_files], on what [subprocess.run] of [git diff] did. *)
Definition get_staged_files (ran : attempt completed_process) : list string :=
  match ran with
  | Done result =>
      let files := split newline (strip (stdout result)) in
      filter (fun f => endswith f ".py"
                       && match f with EmptyString => false | _ => true end) files
  | Threw _ => []
  end.

(** What the linter finds around it. *)
Record world : Type := mkWorld {
  git_diff : attempt completed_process;
  path_exists : string -> bool;
  parse_file : string -> attempt unit;
  py_compile : string -> attempt completed_process
}.

Section Main.

(** The character U+274C the messages begin with. *)
Variable cross_mark : string.

Variable w : world.

(** The body of [for filepath in staged_files], on the list [errors]. *)
Definition check_file (errors : list string) (filepath : string) : list string :=
  if negb (path_exists w filepath) then errors
  else
    let (valid, error) := check_python_syntax (parse_file w filepath) in
    if negb valid then
      (errors ++ [(cross_mark ++ " " ++ filepath ++ ": " ++ format_error error)%string])%list
    else
      let (valid, error) := check_imports (py_compile w filepath) in
      if negb valid then
        (errors ++ [(cross_mark ++ " " ++ filepath ++ ": Import error"
                     ++ String newline (format_error error))%string])%list
      else errors.

(** The list [errors] after the loop. *)
Definition lint_errors (staged_files : list string) : list string :=
  fold_left check_file staged_files [].

(** [main]: the status it returns. *)
Definition main : Z :=
  let staged_files := get_staged_files (git_diff w) in
  match staged_files with
  | [] => 0%Z
  | _ =>
      match lint_errors staged_files with
      | [] => 0%Z
      | _ => 1%Z
      end
  end.


End Main.

End LintChanges.

(** ** The monad and the loops *)

Section Loops.
Context {A S : Type}.

Lemma for_each_pure (body : S -> A -> outcome S) (f : S -> A -> S) (items : list A) :
  (forall s x, In x items -> body s x = Returned (f s x)) ->
  forall s, for_each body items s = Returned (fold_left f items s).
Proof.
  induction items as [|x rest IH]; intros Hbody s; simpl.
  - reflexivity.
  - rewrite Hbody by (left; reflexivity). simpl.
    apply IH. intros s' y Hy. apply Hbody. right. exact Hy.
Qed.

Lemma for_each_app (body : S -> A -> outcome S) (xs ys : list A) (s : S) :
  for_each body (xs ++ ys)%list s = (s' <- for_each body xs s ;; for_each body ys s').
Proof.
  revert s. induction xs as [|x xs IH]; intros s; simpl.
  - reflexivity.
  - destruct (body s x) as [s'|e]; simpl; [apply IH | reflexivity].
Qed.
End Loops.

Lemma index_events_app (d : declaration_index) (xs ys : list event) :
  index_events d (xs ++ ys)%list = index_events (index_events d xs) ys.
Proof. unfold index_events. apply fold_left_app. Qed.

(** A loop whose body files a list of events files their concatenation. *)
Lemma for_each_events {A : Type} (body : declaration_index -> A -> outcome declaration_index)
  (ev : A -> list event) (items : list A) :
  (forall d x, In x items -> body d x = Returned (index_events d (ev x))) ->
  forall d, for_each body items d = Returned (index_events d (flat_map ev items)).
Proof.
  induction items as [|x rest IH]; intros Hbody d; simpl.
  - reflexivity.
  - rewrite Hbody by (left; reflexivity). simpl.
    rewrite index_events_app. apply IH.
    intros d' y Hy. apply Hbody. right. exact Hy.
Qed.

(** ** The matcher *)

(** Every match of a declaration pattern carries exactly one capture. *)
Lemma finditer_from_one_group (kw : string) (s : string) :
  forall pos prev skip m,
    In m (finditer_from kw pos prev skip s) -> exists name, m_groups m = [name].
Proof.
  induction s as [|x rest IH]; intros pos prev skip m Hin; simpl in Hin.
  - contradiction.
  - destruct skip as [|k].
    + destruct (word_boundary prev (Some x)).
      * destruct (decl_here kw (String x rest)) as [[ws name]|].
        -- destruct Hin as [<-|Hin]; [exists name; reflexivity | eauto].
        -- eauto.
      * eauto.
    + eauto.
Qed.

Lemma finditer_group_1 (kw line : string) (m : rmatch) :
  In m (finditer kw line) -> exists name, m_groups m = [name] /\ group m 1 = Returned name.
Proof.
  intros Hin. destruct (finditer_from_one_group _ _ _ _ _ _ Hin) as [name Hname].
  exists name. split; [exact Hname|]. unfold group. rewrite Hname. reflexivity.
Qed.

(** ** The scan, loop by loop *)

Lemma record_matches_events (line_num : nat) (decl_type line : string) (ms : list rmatch) :
  (forall m, In m ms -> exists name, m_groups m = [name]) ->
  forall d,
    for_each (record_match line_num decl_type line) ms d
    = Returned (index_events d
        (map (fun name => (name, (line_num, decl_type, strip line)))
             (flat_map m_groups ms))).
Proof.
  intros Hone d.
  rewrite (for_each_events _
             (fun m => map (fun name => (name, (line_num, decl_type, strip line)))
                           (m_groups m))).
  - f_equal. f_equal. clear Hone. induction ms as [|m ms IH]; simpl.
    + reflexivity.
    + rewrite map_app, IH. reflexivity.
  - intros d' m Hm. destruct (Hone m Hm) as [name Hname].
    unfold record_match, group. rewrite Hname. reflexivity.
Qed.

Lemma scan_pattern_events (line_num : nat) (line : string) (d : declaration_index)
  (p : string * string) :
  scan_pattern line_num line d p
  = Returned (index_events d
      (map (fun name => (name, (line_num, snd p, strip line)))
           (flat_map m_groups (finditer (fst p) line)))).
Proof.
  destruct p as [pattern decl_type]. unfold scan_pattern. simpl.
  apply record_matches_events. intros m Hm.
  destruct (finditer_group_1 _ _ _ Hm) as [name [Hname _]]. eauto.
Qed.

Lemma scan_patterns_events (line_num : nat) (line : string) (d : declaration_index) :
  for_each (scan_pattern line_num line) patterns d
  = Returned (index_events d (line_events line_num line)).
Proof.
  unfold line_events. apply for_each_events.
  intros d' p _. apply scan_pattern_events.
Qed.

(** One step of the line loop: the depth the test looks at is the depth the
    loop had before the line, and the line is filed exactly when it is at
    most 0. *)
Lemma scan_line_step (brace_depth : Z) (d : declaration_index) (line_num : nat)
  (line : string) :
  scan_line (brace_depth, d) (line_num, line)
  = Returned ((brace_depth + delta line)%Z,
              if (brace_depth <=? 0)%Z then index_events d (line_events line_num line)
              else d).
Proof.
  unfold scan_line, delta.
  replace (brace_depth + (count "{" line - count "}" line)
           - count "{" line + count "}" line)%Z with brace_depth by lia.
  destruct (brace_depth <=? 0)%Z.
  - rewrite scan_patterns_events. reflexivity.
  - reflexivity.
Qed.

Lemma sum_deltas_app (xs ys : list string) :
  sum_deltas (xs ++ ys)%list = (sum_deltas xs + sum_deltas ys)%Z.
Proof.
  unfold sum_deltas. induction xs as [|x xs IH]; simpl; [reflexivity | rewrite IH; lia].
Qed.

Lemma depth_before_prefix (pre : list string) (rest : list string) :
  depth_before (pre ++ rest)%list (S (List.length pre)) = sum_deltas pre.
Proof.
  unfold depth_before. simpl. rewrite Nat.sub_0_r.
  rewrite firstn_app, Nat.sub_diag, firstn_all. simpl. rewrite app_nil_r. reflexivity.
Qed.

(** The line loop from the middle of the text: [pre] is scanned, [rest] is
    to come. *)
Lemma scan_from (rest : list string) :
  forall (pre : list string) (d : declaration_index),
    let lines := (pre ++ rest)%list in
    for_each scan_line (enumerate rest (S (List.length pre))) (sum_deltas pre, d)
    = Returned (sum_deltas lines,
                index_events d
                  (flat_map
                     (fun numbered : nat * string =>
                        if (depth_before lines (fst numbered) <=? 0)%Z
                        then line_events (fst numbered) (snd numbered) else [])
                     (enumerate rest (S (List.length pre))))).
Proof.
  induction rest as [|line rest IH]; intros pre d; cbn [enumerate for_each flat_map].
  - rewrite app_nil_r. reflexivity.
  - rewrite scan_line_step. cbn [bind fst snd].
    rewrite depth_before_prefix.
    specialize (IH (pre ++ [line])%list).
    rewrite <- app_assoc in IH. simpl in IH.
    rewrite length_app in IH. simpl in IH. rewrite Nat.add_1_r in IH.
    rewrite sum_deltas_app in IH. unfold sum_deltas at 2 in IH. simpl in IH.
    rewrite Z.add_0_r in IH. rewrite IH.
    f_equal. f_equal.
    destruct (sum_deltas pre <=? 0)%Z.
    + rewrite index_events_app. reflexivity.
    + reflexivity.
Qed.

(** The scan never raises, and builds the index of the top-level events. *)
Lemma scan_lines_events (js_code : string) :
  scan_lines js_code
  = Returned (sum_deltas (split newline js_code),
              index_events [] (top_level_events (split newline js_code))).
Proof.
  unfold scan_lines, top_level_events.
  exact (scan_from (split newline js_code) [] []).
Qed.

(** ** The index as a dictionary *)

Lemma lookup_dd_append (d : declaration_index) (key : string) (o : occurrence) (k : string) :
  lookup (dd_append d key o) k
  = if String.eqb key k
    then Some (match lookup d key with Some occs => occs ++ [o] | None => [o] end)%list
    else lookup d k.
Proof.
  induction d as [|[k0 occs] rest IH]; simpl.
  - reflexivity.
  - destruct (String.eqb_spec k0 key) as [->|Hne]; simpl.
    + destruct (String.eqb_spec key k); reflexivity.
    + rewrite IH. destruct (String.eqb_spec key k) as [->|Hne'].
      * destruct (String.eqb_spec k0 k); [contradiction | reflexivity].
      * reflexivity.
Qed.

Lemma occurrences_of_cons (name : string) (e : event) (events : list event) :
  occurrences_of name (e :: events)
  = if String.eqb (fst e) name then snd e :: occurrences_of name events
    else occurrences_of name events.
Proof. unfold occurrences_of. simpl. destruct (String.eqb (fst e) name); reflexivity. Qed.

(** An identifier maps to the occurrences filed under it, in scan order. *)
Lemma lookup_index_events (events : list event) :
  forall (d : declaration_index) (name : string),
    lookup (index_events d events) name
    = match lookup d name, occurrences_of name events with
      | None, [] => None
      | None, more => Some more
      | Some occs, more => Some (occs ++ more)%list
      end.
Proof.
  induction events as [|e events IH]; intros d name.
  - simpl. destruct (lookup d name); [rewrite app_nil_r|]; reflexivity.
  - cbn [index_events fold_left]. fold (index_events (dd_append d (fst e) (snd e)) events).
    rewrite IH, lookup_dd_append, occurrences_of_cons.
    destruct (String.eqb_spec (fst e) name) as [->|Hne].
    + destruct (lookup d name) as [occs|].
      * rewrite <- app_assoc. reflexivity.
      * reflexivity.
    + reflexivity.
Qed.

Lemma lookup_scan (events : list event) (name : string) :
  lookup (index_events [] events) name
  = match occurrences_of name events with
    | [] => None
    | occs => Some occs
    end.
Proof. rewrite lookup_index_events. reflexivity. Qed.

Lemma keys_dd_append (d : declaration_index) (key : string) (o : occurrence) :
  keys (dd_append d key o)
  = if existsb (String.eqb key) (keys d) then keys d else (keys d ++ [key])%list.
Proof.
  unfold keys. induction d as [|[k occs] rest IH]; simpl.
  - reflexivity.
  - rewrite (String.eqb_sym key k). destruct (String.eqb k key); simpl.
    + reflexivity.
    + rewrite IH. destruct (existsb (String.eqb key) (map fst rest)); reflexivity.
Qed.

Lemma keys_dd_append_nodup (d : declaration_index) (key : string) (o : occurrence) :
  NoDup (keys d) -> NoDup (keys (dd_append d key o)).
Proof.
  intros Hnd. rewrite keys_dd_append.
  destruct (existsb (String.eqb key) (keys d)) eqn:Hex; [exact Hnd|].
  apply NoDup_app; [exact Hnd | repeat constructor; intros [] | ].
  intros k Hk [Heq|[]]. subst k.
  assert (existsb (String.eqb key) (keys d) = true) as Habs.
  { apply existsb_exists. exists key. split; [exact Hk | apply String.eqb_refl]. }
  congruence.
Qed.

Lemma keys_index_events_nodup (events : list event) :
  forall d, NoDup (keys d) -> NoDup (keys (index_events d events)).
Proof.
  induction events as [|e events IH]; intros d Hnd; simpl.
  - exact Hnd.
  - apply IH. apply keys_dd_append_nodup. exact Hnd.
Qed.

Lemma lookup_in (d : declaration_index) (name : string) (occs : list occurrence) :
  lookup d name = Some occs -> In (name, occs) d.
Proof.
  induction d as [|[k occs0] rest IH]; simpl; intros Hl.
  - discriminate.
  - destruct (String.eqb_spec k name) as [->|Hne].
    + injection Hl as ->. left. reflexivity.
    + right. apply IH. exact Hl.
Qed.

Lemma in_lookup (d : declaration_index) (name : string) (occs : list occurrence) :
  NoDup (keys d) -> In (name, occs) d -> lookup d name = Some occs.
Proof.
  unfold keys. induction d as [|[k occs0] rest IH]; simpl; intros Hnd Hin.
  - contradiction.
  - inversion Hnd as [|k' ks Hnotin Hnd']; subst.
    destruct Hin as [Heq|Hin].
    + injection Heq as -> ->. rewrite String.eqb_refl. reflexivity.
    + destruct (String.eqb_spec k name) as [->|Hne].
      * exfalso. apply Hnotin. apply (in_map fst) in Hin. exact Hin.
      * apply IH; assumption.
Qed.

(** ** The defects drawn from the index *)

Lemma duplicate_errors_in (d : declaration_index) (e : error) :
  In e (duplicate_errors d)
  <-> exists name occs,
        In (name, occs) d /\ 1 < List.length occs /\ e = duplicate_error name occs.
Proof.
  induction d as [|[k occs0] rest IH]; simpl.
  - split; [contradiction | intros (? & ? & [] & _)].
  - destruct (Nat.ltb_spec 1 (List.length occs0)) as [Hlt|Hge]; simpl; rewrite IH; split.
    + intros [<-|(name & occs & Hin & Hlen & ->)].
      * exists k, occs0. auto.
      * exists name, occs. auto.
    + intros (name & occs & [Heq|Hin] & Hlen & ->).
      * injection Heq as -> ->. left. reflexivity.
      * right. exists name, occs. auto.
    + intros (name & occs & Hin & Hlen & ->). exists name, occs. auto.
    + intros (name & occs & [Heq|Hin] & Hlen & ->).
      * injection Heq as -> ->. lia.
      * exists name, occs. auto.
Qed.

Lemma duplicate_errors_not_key (d : declaration_index) (name : string) :
  ~ In name (keys d) -> filter (error_is_for name) (duplicate_errors d) = [].
Proof.
  unfold keys. induction d as [|[k occs] rest IH]; simpl; intros Hnot.
  - reflexivity.
  - assert (String.eqb k name = false) as Hk.
    { apply String.eqb_neq. intros ->. apply Hnot. left. reflexivity. }
    destruct (1 <? List.length occs)%nat; simpl.
    + unfold error_is_for at 1. simpl. rewrite Hk. apply IH. tauto.
    + apply IH. tauto.
Qed.

(** The defects about one identifier: one when it has more than one
    occurrence in the index, none otherwise. *)
Lemma duplicate_errors_for (d : declaration_index) (name : string) :
  NoDup (keys d) ->
  filter (error_is_for name) (duplicate_errors d)
  = match lookup d name with
    | Some occs => if (1 <? List.length occs)%nat then [duplicate_error name occs] else []
    | None => []
    end.
Proof.
  unfold keys. induction d as [|[k occs] rest IH]; simpl; intros Hnd.
  - reflexivity.
  - inversion Hnd as [|k' ks Hnotin Hnd']; subst.
    destruct (String.eqb_spec k name) as [->|Hne].
    + destruct (1 <? List.length occs)%nat; simpl.
      * unfold error_is_for at 1. simpl. rewrite String.eqb_refl.
        rewrite duplicate_errors_not_key by exact Hnotin. reflexivity.
      * apply duplicate_errors_not_key. exact Hnotin.
    + destruct (1 <? List.length occs)%nat; simpl.
      * unfold error_is_for at 1. simpl.
        destruct (String.eqb_spec k name); [contradiction|]. apply IH. exact Hnd'.
      * apply IH. exact Hnd'.
Qed.

(** ** Line order *)

Lemma sorted_app (xs ys : list nat) :
  StronglySorted le xs -> StronglySorted le ys ->
  (forall x y, In x xs -> In y ys -> x <= y) ->
  StronglySorted le (xs ++ ys)%list.
Proof.
  induction xs as [|x xs IH]; simpl; intros Hxs Hys Hle.
  - exact Hys.
  - inversion Hxs as [|x' xs' Hxs' Hall]; subst. constructor.
    + apply IH; auto.
    + apply Forall_app. split; [exact Hall|].
      apply Forall_forall. intros y Hy. apply Hle; auto.
Qed.

Lemma sorted_filter_map {A : Type} (f : A -> nat) (p : A -> bool)
  (pick : A -> A) (xs : list A) :
  (forall x, f (pick x) = f x) ->
  StronglySorted le (map f xs) -> StronglySorted le (map f (map pick (filter p xs))).
Proof.
  intros Hpick. induction xs as [|x xs IH]; simpl; intros Hs.
  - constructor.
  - inversion Hs as [|x' xs' Hs' Hall]; subst.
    destruct (p x); simpl; [|auto].
    constructor; [auto|].
    rewrite Hpick. rewrite Forall_forall in *. intros y Hy.
    apply Hall. rewrite in_map_iff in *. destruct Hy as (z & <- & Hz).
    rewrite in_map_iff in Hz. destruct Hz as (w & <- & Hw).
    apply filter_In in Hw. exists w. split; [symmetry; apply Hpick | tauto].
Qed.

(** The occurrences filed under one identifier keep the order of the lines. *)
Lemma occurrences_of_sorted (name : string) (events : list event) :
  StronglySorted le (map event_line events) ->
  StronglySorted le (map occ_line (occurrences_of name events)).
Proof.
  intros Hs. unfold occurrences_of. rewrite map_map.
  pose proof (sorted_filter_map event_line
                (fun e : event => String.eqb (fst e) name) (fun e => e) events
                (fun _ => eq_refl) Hs) as H.
  rewrite map_id in H. exact H.
Qed.

Lemma line_events_line (line_num : nat) (line : string) (e : event) :
  In e (line_events line_num line) -> event_line e = line_num.
Proof.
  unfold line_events. rewrite in_flat_map. intros (p & _ & Hin).
  rewrite in_map_iff in Hin. destruct Hin as (name & <- & _). reflexivity.
Qed.

Lemma line_events_sorted (line_num : nat) (line : string) :
  StronglySorted le (map event_line (line_events line_num line)).
Proof.
  pose proof (line_events_line line_num line) as Hall.
  induction (line_events line_num line) as [|e es IH]; simpl.
  - constructor.
  - constructor.
    + apply IH. intros e' He'. apply Hall. right. exact He'.
    + apply Forall_forall. intros n Hn. rewrite in_map_iff in Hn.
      destruct Hn as (e' & <- & He').
      rewrite (Hall e) by (left; reflexivity).
      rewrite (Hall e') by (right; exact He'). constructor.
Qed.

Lemma enumerate_in {A : Type} (items : list A) :
  forall (start i : nat) (x : A),
    In (i, x) (enumerate items start)
    <-> start <= i /\ nth_error items (i - start) = Some x.
Proof.
  induction items as [|y rest IH]; intros start i x; simpl.
  - split; [contradiction|]. intros [_ H]. destruct (i - start); discriminate.
  - rewrite IH. split.
    + intros [Heq|[Hle Hnth]].
      * injection Heq as <- <-. rewrite Nat.sub_diag. auto.
      * split; [lia|]. replace (i - start) with (S (i - S start)) by lia. exact Hnth.
    + intros [Hle Hnth]. destruct (i - start) as [|k] eqn:Hk.
      * left. injection Hnth as <-. f_equal. lia.
      * right. split; [lia|]. replace (i - S start) with k by lia. exact Hnth.
Qed.

(** The events of a run of numbered lines come in line order, whatever the
    test that keeps or drops a line. *)
Lemma kept_events_sorted (keep : nat -> bool) (rest : list string) :
  forall start,
    let events :=
      flat_map (fun numbered : nat * string =>
                  if keep (fst numbered)
                  then line_events (fst numbered) (snd numbered) else [])
               (enumerate rest start) in
    StronglySorted le (map event_line events)
    /\ Forall (fun e => start <= event_line e) events.
Proof.
  induction rest as [|line rest IH]; intros start; simpl.
  - split; constructor.
  - destruct (IH (S start)) as [Hs Hge]. split.
    + rewrite map_app. apply sorted_app.
      * destruct (keep start); [apply line_events_sorted | constructor].
      * exact Hs.
      * intros x y Hx Hy. rewrite in_map_iff in Hx, Hy.
        destruct Hx as (e & <- & He). destruct Hy as (e' & <- & He').
        rewrite Forall_forall in Hge. specialize (Hge e' He').
        destruct (keep start); [|contradiction].
        rewrite (line_events_line _ _ _ He). lia.
    + apply Forall_app. split.
      * destruct (keep start); [|constructor].
        apply Forall_forall. intros e He. rewrite (line_events_line _ _ _ He). lia.
      * eapply Forall_impl; [|exact Hge]. simpl. intros; lia.
Qed.

Lemma top_level_events_sorted (lines : list string) :
  StronglySorted le (map event_line (top_level_events lines)).
Proof.
  exact (proj1 (kept_events_sorted (fun i => (depth_before lines i <=? 0)%Z) lines 1)).
Qed.

(** ** The order of the identifiers in the index *)

Lemma index_ok_weaken (b b' : nat) (d : declaration_index) :
  b <= b' -> index_ok b d -> index_ok b' d.
Proof.
  intros Hle [Hall Hs]. split; [|exact Hs].
  eapply Forall_impl; [|exact Hall]. simpl. intros kv [Hne Hb]. split; [exact Hne|].
  eapply Forall_impl; [|exact Hb]. simpl. intros; lia.
Qed.

Lemma index_ok_first_lines (b : nat) (d : declaration_index) :
  index_ok b d -> Forall (fun n => n <= b) (first_lines d).
Proof.
  intros [Hall _]. unfold first_lines. apply Forall_forall. intros n Hn.
  rewrite in_map_iff in Hn. destruct Hn as ([k occs] & <- & Hin).
  rewrite Forall_forall in Hall. destruct (Hall _ Hin) as [Hne Hb]. simpl in *.
  destruct occs as [|o occs]; [contradiction|]. simpl.
  inversion Hb; assumption.
Qed.

Lemma first_line_app (occs : list occurrence) (o : occurrence) :
  occs <> [] -> first_line (occs ++ [o]) = first_line occs.
Proof. destruct occs; [contradiction | reflexivity]. Qed.

Lemma dd_append_ok (d : declaration_index) (key : string) (o : occurrence) :
  index_ok (occ_line o) d -> index_ok (occ_line o) (dd_append d key o).
Proof.
  induction d as [|[k occs] rest IH]; intros Hok.
  - simpl. split.
    + constructor; [|constructor]. simpl. split; [discriminate|].
      constructor; [apply le_n | constructor].
    + unfold first_lines. simpl. constructor; constructor.
  - pose proof (index_ok_first_lines _ _ Hok) as Hfirst.
    destruct Hok as [Hall Hs]. inversion Hall as [|kv kvs [Hne Hb] Hall']; subst.
    simpl in Hne, Hb. unfold first_lines in Hs, Hfirst. simpl in Hs, Hfirst.
    inversion Hs as [|n ns Hs' Hle]; subst.
    inversion Hfirst as [|n ns Hk Hfirst']; subst.
    simpl. destruct (String.eqb k key).
    + split.
      * constructor; [|exact Hall']. simpl. split.
        -- destruct occs; discriminate.
        -- apply Forall_app. split; [exact Hb|].
           constructor; [apply le_n | constructor].
      * unfold first_lines. simpl. rewrite first_line_app by exact Hne.
        constructor; assumption.
    + destruct (IH (conj Hall' Hs')) as [Hall2 Hs2]. split.
      * constructor; [split; assumption | exact Hall2].
      * unfold first_lines. simpl. constructor; [exact Hs2|].
        apply Forall_forall. intros n Hn.
        pose proof (index_ok_first_lines _ _ (conj Hall2 Hs2)) as Hb2.
        rewrite Forall_forall in Hb2, Hle.
        (* an entry of the grown index is an old one or the new last one *)
        clear - Hn Hle Hk Hall' Hne.
        revert Hn Hle. unfold first_lines.
        induction rest as [|[k' occs'] rest' IHr]; simpl.
        -- intros [<-|[]] _. exact Hk.
        -- inversion Hall' as [|kv kvs [Hne' _] Hall'']; subst. simpl in Hne'.
           destruct (String.eqb k' key); simpl.
           ++ rewrite first_line_app by exact Hne'. intros Hn Hle. apply Hle. exact Hn.
           ++ intros [<-|Hn] Hle.
              ** apply Hle. left. reflexivity.
              ** apply IHr; auto.
Qed.

Lemma index_events_ok (events : list event) :
  forall (b : nat) (d : declaration_index),
    index_ok b d ->
    StronglySorted le (map event_line events) ->
    Forall (fun e => b <= event_line e) events ->
    exists b', index_ok b' (index_events d events).
Proof.
  induction events as [|e events IH]; intros b d Hok Hs Hge; simpl.
  - exists b. exact Hok.
  - inversion Hs as [|n ns Hs' Hle]; subst. inversion Hge as [|e' es Hb Hge']; subst.
    apply (IH (event_line e)).
    + apply dd_append_ok. apply (index_ok_weaken b); assumption.
    + exact Hs'.
    + apply Forall_forall. intros e' He'. rewrite Forall_forall in Hle.
      apply Hle. apply in_map. exact He'.
Qed.

Lemma scan_index_ok (lines : list string) :
  exists b, index_ok b (index_events [] (top_level_events lines)).
Proof.
  apply (index_events_ok _ 0).
  - split; constructor.
  - apply top_level_events_sorted.
  - apply Forall_forall. intros; lia.
Qed.

(** The defects follow the order of the index. *)
Lemma duplicate_errors_sorted (d : declaration_index) :
  StronglySorted le (first_lines d) ->
  StronglySorted le (map error_first_line (duplicate_errors d)).
Proof.
  unfold first_lines. induction d as [|[k occs] rest IH]; simpl; intros Hs.
  - constructor.
  - inversion Hs as [|n ns Hs' Hle]; subst.
    destruct (1 <? List.length occs)%nat; simpl; [|auto].
    constructor; [auto|]. unfold error_first_line at 1. simpl.
    rewrite Forall_forall in *. intros n Hn. apply Hle.
    rewrite in_map_iff in *. destruct Hn as (e & <- & He).
    apply duplicate_errors_in in He. destruct He as (name & occs' & Hin & _ & ->).
    exists (name, occs'). split; [reflexivity | exact Hin].
Qed.

(** ** The shape of the matches *)

Lemma append_assoc (a b c : string) : (a ++ b) ++ c = a ++ (b ++ c).
Proof. induction a as [|x a IH]; simpl; [reflexivity | rewrite IH; reflexivity]. Qed.

Lemma strip_prefix_some (lit : string) :
  forall s r, strip_prefix lit s = Some r -> s = lit ++ r.
Proof.
  induction lit as [|a lit IH]; intros s r; simpl.
  - intros [= ->]. reflexivity.
  - destruct s as [|b s]; [discriminate|].
    destruct (Ascii.eqb_spec a b) as [->|]; [|discriminate].
    intros H. rewrite (IH _ _ H). reflexivity.
Qed.

Lemma span_spec (p : ascii -> bool) (s : string) :
  forall run tl,
    span p s = (run, tl) ->
    s = run ++ tl /\ all_chars p run
    /\ match first_char tl with Some c => p c = false | None => True end.
Proof.
  induction s as [|x s IH]; intros run tl; simpl.
  - intros [= <- <-]. simpl. auto.
  - destruct (p x) eqn:Hp.
    + destruct (span p s) as [run' tl'] eqn:Hs. intros [= <- <-].
      destruct (IH _ _ eq_refl) as (-> & Hall & Htl). simpl. auto.
    + intros [= <- <-]. simpl. auto.
Qed.

(** What a successful attempt at the front of [s] has matched. *)
Lemma decl_here_some (kw s ws name : string) :
  decl_here kw s = Some (ws, name) ->
  exists post,
    s = kw ++ ws ++ name ++ post
    /\ ws <> EmptyString /\ all_chars is_space ws /\ maximal_run is_word name post.
Proof.
  unfold decl_here. destruct (strip_prefix kw s) as [after_kw|] eqn:Hkw; [|discriminate].
  destruct (span is_space after_kw) as [ws' after_ws] eqn:Hws.
  destruct ws' as [|w ws']; [discriminate|].
  destruct (span is_word after_ws) as [name' post] eqn:Hname.
  destruct name' as [|n name']; [discriminate|].
  intros [= <- <-]. exists post.
  apply strip_prefix_some in Hkw. apply span_spec in Hws, Hname.
  destruct Hws as (-> & Hsp & _). destruct Hname as (-> & Hwd & Hpost).
  subst s. repeat split; try discriminate; try assumption; try apply Hsp; try apply Hwd.
  unfold is_word_at. destruct (first_char post); [exact Hpost | reflexivity].
Qed.

Lemma finditer_from_shape (kw : string) (s : string) :
  forall pos prev skip m,
    In m (finditer_from kw pos prev skip s) ->
    exists pre ws name post,
      s = pre ++ kw ++ ws ++ name ++ post
      /\ m_start m = pos + String.length pre
      /\ m_end m = pos + String.length pre + String.length kw + String.length ws
                   + String.length name
      /\ m_text m = kw ++ ws ++ name
      /\ m_groups m = [name]
      /\ word_boundary (char_before prev pre) (first_char (kw ++ ws ++ name ++ post)) = true
      /\ ws <> EmptyString /\ all_chars is_space ws
      /\ maximal_run is_word name post.
Proof.
  assert (forall x rest pos m,
             (exists pre ws name post,
                 rest = pre ++ kw ++ ws ++ name ++ post
                 /\ m_start m = S pos + String.length pre
                 /\ m_end m = S pos + String.length pre + String.length kw
                              + String.length ws + String.length name
                 /\ m_text m = kw ++ ws ++ name
                 /\ m_groups m = [name]
                 /\ word_boundary (char_before (Some x) pre)
                      (first_char (kw ++ ws ++ name ++ post)) = true
                 /\ ws <> EmptyString /\ all_chars is_space ws
                 /\ maximal_run is_word name post) ->
             forall prev,
             exists pre ws name post,
               String x rest = pre ++ kw ++ ws ++ name ++ post
               /\ m_start m = pos + String.length pre
               /\ m_end m = pos + String.length pre + String.length kw
                            + String.length ws + String.length name
               /\ m_text m = kw ++ ws ++ name
               /\ m_groups m = [name]
               /\ word_boundary (char_before prev pre)
                    (first_char (kw ++ ws ++ name ++ post)) = true
               /\ ws <> EmptyString /\ all_chars is_space ws
               /\ maximal_run is_word name post) as Hshift.
  { intros x rest pos m (pre & ws & name & post & -> & Hst & Hen & Htx & Hg & Hb & Hrest) prev.
    exists (String x pre), ws, name, post. simpl.
    destruct Hrest as (Hws & Hsp & Hrun).
    repeat split; try assumption; try apply Hrun; try (rewrite ?Hst, ?Hen; lia). }
  induction s as [|x rest IH]; intros pos prev skip m Hin; simpl in Hin.
  - contradiction.
  - destruct skip as [|k]; [|apply Hshift; eauto].
    destruct (word_boundary prev (Some x)) eqn:Hb; [|apply Hshift; eauto].
    destruct (decl_here kw (String x rest)) as [[ws name]|] eqn:Hd; [|apply Hshift; eauto].
    destruct Hin as [<-|Hin]; [|apply Hshift; eauto].
    destruct (decl_here_some _ _ _ _ Hd) as (post & Hs & Hws & Hsp & Hrun).
    exists EmptyString, ws, name, post. simpl.
    repeat split; try assumption; try lia; try apply Hrun.
    rewrite <- Hs. simpl. exact Hb.
Qed.

Lemma finditer_shape (kw line : string) (m : rmatch) :
  In m (finditer kw line) -> match_shape kw line m.
Proof.
  intros Hin. destruct (finditer_from_shape _ _ _ _ _ _ Hin)
    as (pre & ws & name & post & H1 & H2 & H3 & H4).
  exists pre, ws, name, post. simpl in H2, H3. tauto.
Qed.

Lemma maximal_run_word_name (name post : string) :
  maximal_run is_word name post -> word_name name.
Proof.
  intros (Hne & Hall & _). split; [|exact Hall].
  destruct name as [|c rest]; [contradiction|]. exists c, rest. simpl in Hall. tauto.
Qed.

Lemma line_events_word_name (line_num : nat) (line : string) (e : event) :
  In e (line_events line_num line) -> word_name (fst e).
Proof.
  unfold line_events. rewrite in_flat_map. intros (p & _ & Hin).
  rewrite in_map_iff in Hin. destruct Hin as (name & <- & Hname).
  rewrite in_flat_map in Hname. destruct Hname as (m & Hm & Hg).
  destruct (finditer_shape _ _ _ Hm)
    as (pre & ws & name' & post & _ & _ & _ & _ & Hgroups & _ & _ & _ & Hrun).
  rewrite Hgroups in Hg. destruct Hg as [<-|[]]. simpl.
  exact (maximal_run_word_name _ _ Hrun).
Qed.

Lemma top_level_events_in (lines : list string) (e : event) :
  In e (top_level_events lines)
  <-> exists i line,
        1 <= i /\ nth_error lines (i - 1) = Some line
        /\ (depth_before lines i <= 0)%Z /\ In e (line_events i line).
Proof.
  unfold top_level_events. rewrite in_flat_map. split.
  - intros ([i line] & Hin & He). simpl in He.
    apply enumerate_in in Hin. destruct Hin as [Hle Hnth].
    destruct (Z.leb_spec (depth_before lines i) 0); [|contradiction].
    exists i, line. auto.
  - intros (i & line & Hle & Hnth & Hd & He). exists (i, line). split.
    + apply enumerate_in. auto.
    + simpl. destruct (Z.leb_spec (depth_before lines i) 0); [exact He | lia].
Qed.

Lemma keys_index_events (events : list event) (name : string) :
  forall d, In name (keys (index_events d events))
            <-> In name (keys d) \/ In name (map fst events).
Proof.
  induction events as [|e events IH]; intros d; simpl.
  - tauto.
  - fold (index_events (dd_append d (fst e) (snd e)) events).
    rewrite IH, keys_dd_append.
    destruct (existsb (String.eqb (fst e)) (keys d)) eqn:Hex.
    + apply existsb_exists in Hex. destruct Hex as (k & Hk & Heq).
      apply String.eqb_eq in Heq. subst k. intuition (subst; auto).
    + rewrite in_app_iff. simpl. intuition (subst; auto).
Qed.

(** ** The two checkers without the monad *)

Lemma check_duplicate_declarations_returns (js_code : string) :
  check_duplicate_declarations js_code = Returned (dup_defects js_code).
Proof.
  unfold check_duplicate_declarations. rewrite scan_lines_events. reflexivity.
Qed.

Lemma unmatched_defect (k : delimiter) (text : string) :
  unmatched (plural k) (net k text)
  = if (net k text =? 0)%Z then []
    else [unbalanced_defect k (Z.abs_N (net k text)) (0 <? net k text)%Z].
Proof.
  unfold unmatched, unbalanced_defect, unmatched_message, error_type_of.
  rewrite Z.gtb_ltb. reflexivity.
Qed.

Lemma check_syntax_errors_returns (js_code : string) :
  check_syntax_errors js_code = Returned (syn_defects js_code).
Proof.
  unfold check_syntax_errors.
  change (count "{" js_code - count "}" js_code)%Z with (net Brace js_code).
  change (count "(" js_code - count ")" js_code)%Z with (net Paren js_code).
  change (count "[" js_code - count "]" js_code)%Z with (net Bracket js_code).
  change "braces" with (plural Brace).
  change "parentheses" with (plural Paren).
  change "brackets" with (plural Bracket).
  rewrite !unmatched_defect. unfold syn_defects, unbalanced_kinds, all_delimiters.
  simpl filter.
  destruct (net Brace js_code =? 0)%Z, (net Paren js_code =? 0)%Z,
    (net Bracket js_code =? 0)%Z; reflexivity.
Qed.

Lemma count_filter (c : ascii) (s : string) :
  count c s = Z.of_nat (occurrences_of_char c s).
Proof.
  unfold occurrences_of_char. induction s as [|x s IH]; simpl.
  - reflexivity.
  - rewrite IH, (Ascii.eqb_sym c x). destruct (Ascii.eqb x c); simpl List.length; lia.
Qed.

(** ** The merge *)

Lemma check_block_returns (all_errors : list (nat * error)) (i : nat) (script : string) :
  check_block all_errors (i, script)
  = Returned (all_errors ++ tag_block i (block_defects script))%list.
Proof.
  unfold check_block, block_defects.
  rewrite check_duplicate_declarations_returns, check_syntax_errors_returns.
  cbn [bind]. unfold tag_block. rewrite map_app, app_assoc.
  destruct (dup_defects script), (syn_defects script); simpl;
    rewrite ?app_nil_r; reflexivity.
Qed.

Lemma collect_from (scripts : list string) :
  forall (start : nat) (all_errors : list (nat * error)),
    for_each check_block (enumerate scripts start) all_errors
    = Returned (all_errors
                ++ flat_map (fun numbered : nat * string =>
                               tag_block (fst numbered) (block_defects (snd numbered)))
                            (enumerate scripts start))%list.
Proof.
  induction scripts as [|script rest IH]; intros start all_errors;
    cbn [enumerate for_each flat_map].
  - rewrite app_nil_r. reflexivity.
  - rewrite check_block_returns. cbn [bind fst snd]. rewrite IH, app_assoc. reflexivity.
Qed.

Lemma collect_errors_returns (scripts : list string) :
  collect_errors scripts
  = Returned (flat_map (fun numbered : nat * string =>
                          tag_block (fst numbered) (block_defects (snd numbered)))
                       (enumerate scripts 1)).
Proof. unfold collect_errors. rewrite collect_from. reflexivity. Qed.

Lemma collected_nil (scripts : list string) :
  forall start,
    flat_map (fun numbered : nat * string =>
                tag_block (fst numbered) (block_defects (snd numbered)))
             (enumerate scripts start) = []
    <-> forallb block_clean scripts = true.
Proof.
  induction scripts as [|script rest IH]; intros start; simpl.
  - tauto.
  - unfold block_clean at 1. destruct (block_defects script) as [|e es]; simpl.
    + apply IH.
    + split; discriminate.
Qed.

Lemma validate_html_file_returns (html_content : string) :
  validate_html_file html_content = Returned (document_clean html_content).
Proof.
  unfold validate_html_file, document_clean.
  destruct (extract_javascript_from_html html_content) as [|script rest] eqn:Hs.
  - reflexivity.
  - rewrite collect_errors_returns. cbn [bind].
    pose proof (collected_nil (script :: rest) 1) as Hnil.
    destruct (flat_map _ _) as [|e es].
    + rewrite (proj1 Hnil eq_refl). reflexivity.
    + destruct (forallb block_clean (script :: rest)); [|reflexivity].
      destruct Hnil as [_ Hnil]. discriminate (Hnil eq_refl).
Qed.

Lemma all_valid_loop (html_files : list string) :
  forall all_valid : bool,
    for_each
      (fun (all_valid : bool) html_file =>
         ok <- validate_html_file html_file ;;
         Returned (if negb ok then false else all_valid))
      html_files all_valid
    = Returned (all_valid && forallb document_clean html_files).
Proof.
  induction html_files as [|f rest IH]; intros all_valid; cbn [for_each forallb].
  - rewrite andb_true_r. reflexivity.
  - rewrite validate_html_file_returns. cbn [bind]. rewrite IH.
    destruct (document_clean f), all_valid; reflexivity.
Qed.

Lemma main_returns (html_files : list string) :
  main (Some html_files)
  = Returned (if forallb document_clean html_files then 0 else 1)%Z.
Proof.
  unfold main. destruct html_files as [|f rest]; [reflexivity|].
  rewrite all_valid_loop. cbn [bind andb].
  destruct (forallb document_clean (f :: rest)); reflexivity.
Qed.

Lemma block_clean_iff (script : string) :
  block_clean script = true
  <-> check_duplicate_declarations script = Returned []
      /\ check_syntax_errors script = Returned [].
Proof.
  rewrite check_duplicate_declarations_returns, check_syntax_errors_returns.
  unfold block_clean, block_defects.
  destruct (dup_defects script), (syn_defects script); simpl; split;
    try discriminate; try tauto; intros [H1 H2]; discriminate.
Qed.

Lemma documents_clean_iff (html_files : list string) :
  forallb document_clean html_files = true
  <-> forall html script,
        In html html_files -> In script (extract_javascript_from_html html) ->
        check_duplicate_declarations script = Returned []
        /\ check_syntax_errors script = Returned [].
Proof.
  rewrite forallb_forall. unfold document_clean. split.
  - intros H html script Hh Hs. apply block_clean_iff.
    specialize (H html Hh). rewrite forallb_forall in H. apply H. exact Hs.
  - intros H html Hh. rewrite forallb_forall. intros script Hs.
    apply block_clean_iff. eapply H; eassumption.
Qed.

(** ** What the index holds *)

Lemma line_events_in (line_num : nat) (line name : string) (o : occurrence) :
  In (name, o) (line_events line_num line)
  <-> exists kw ty m,
        In (kw, ty) patterns /\ In m (finditer kw line)
        /\ group m 1 = Returned name /\ o = (line_num, ty, strip line).
Proof.
  unfold line_events. rewrite in_flat_map. split.
  - intros ([kw ty] & Hp & Hin). simpl in Hin.
    rewrite in_map_iff in Hin. destruct Hin as (name' & Heq & Hname).
    injection Heq as -> <-.
    rewrite in_flat_map in Hname. destruct Hname as (m & Hm & Hg).
    destruct (finditer_group_1 _ _ _ Hm) as (n & Hgroups & Hgroup).
    rewrite Hgroups in Hg. destruct Hg as [->|[]].
    exists kw, ty, m. auto.
  - intros (kw & ty & m & Hp & Hm & Hgroup & ->).
    exists (kw, ty). split; [exact Hp|]. simpl.
    rewrite in_map_iff. exists name. split; [reflexivity|].
    rewrite in_flat_map. exists m. split; [exact Hm|].
    destruct (finditer_group_1 _ _ _ Hm) as (n & Hgroups & Hgroup').
    rewrite Hgroup in Hgroup'. injection Hgroup' as <-.
    rewrite Hgroups. left. reflexivity.
Qed.

Lemma occurrences_of_in (name : string) (events : list event) (o : occurrence) :
  In o (occurrences_of name events) <-> In (name, o) events.
Proof.
  unfold occurrences_of. rewrite in_map_iff. split.
  - intros ([k o'] & <- & Hin). apply filter_In in Hin. destruct Hin as [Hin Heq].
    simpl in Heq. apply String.eqb_eq in Heq. subst k. exact Hin.
  - intros Hin. exists (name, o). split; [reflexivity|].
    apply filter_In. split; [exact Hin | apply String.eqb_refl].
Qed.

(** An occurrence is in the index exactly when it is a top-level event. *)
Lemma index_holds_events (events : list event) (name : string) (o : occurrence) :
  (exists occs, In (name, occs) (index_events [] events) /\ In o occs)
  <-> In (name, o) events.
Proof.
  assert (NoDup (keys (index_events [] events))) as Hnd
      by (apply keys_index_events_nodup; constructor).
  rewrite <- occurrences_of_in. split.
  - intros (occs & Hin & Ho). apply (in_lookup _ _ _ Hnd) in Hin.
    rewrite lookup_scan in Hin.
    destruct (occurrences_of name events); [discriminate|].
    injection Hin as <-. exact Ho.
  - intros Ho. exists (occurrences_of name events). split; [|exact Ho].
    apply lookup_in. rewrite lookup_scan.
    destruct (occurrences_of name events); [contradiction | reflexivity].
Qed.

Lemma firstn_succ_nth {A : Type} (xs : list A) :
  forall n x, nth_error xs n = Some x -> firstn (S n) xs = (firstn n xs ++ [x])%list.
Proof.
  induction xs as [|y xs IH]; intros n x Hn.
  - destruct n; discriminate.
  - destruct n as [|n]; simpl in Hn.
    + injection Hn as ->. reflexivity.
    + change (firstn (S (S n)) (y :: xs)) with (y :: firstn (S n) xs).
      rewrite (IH _ _ Hn). reflexivity.
Qed.

Lemma depth_before_succ (lines : list string) (i : nat) (line : string) :
  1 <= i -> nth_error lines (i - 1) = Some line ->
  depth_before lines (S i) = (depth_before lines i + delta line)%Z.
Proof.
  intros Hi Hnth. unfold depth_before.
  replace (S i - 1) with (S (i - 1)) by lia.
  rewrite (firstn_succ_nth _ _ _ Hnth), sum_deltas_app.
  unfold sum_deltas at 2. simpl. lia.
Qed.

(** The state of the line loop when it reaches line [i]. *)
Lemma scan_prefix (lines : list string) (i : nat) :
  exists d,
    for_each scan_line (enumerate (firstn (i - 1) lines) 1) (0%Z, [])
    = Returned (depth_before lines i, d).
Proof.
  eexists. unfold depth_before.
  exact (scan_from (firstn (i - 1) lines) [] []).
Qed.

Lemma dup_defects_for (js_code name : string) :
  filter (error_is_for name) (dup_defects js_code)
  = let occs := occurrences_of name (top_level_events (split newline js_code)) in
    if (1 <? List.length occs)%nat then [duplicate_error name occs] else [].
Proof.
  unfold dup_defects. rewrite duplicate_errors_for
    by (apply keys_index_events_nodup; constructor).
  rewrite lookup_scan. cbv zeta.
  destruct (occurrences_of name (top_level_events (split newline js_code))); reflexivity.
Qed.

Lemma dup_defects_shape (js_code : string) (e : error) :
  In e (dup_defects js_code) ->
  has_type "duplicate_declaration" e = true
  /\ exists name,
       err_variable e = Some name
       /\ err_occurrences e
          = Some (occurrences_of name (top_level_events (split newline js_code))).
Proof.
  unfold dup_defects. intros Hin. apply duplicate_errors_in in Hin.
  destruct Hin as (name & occs & Hin & _ & ->). split; [reflexivity|].
  exists name. split; [reflexivity|]. simpl. f_equal.
  apply in_lookup in Hin; [|apply keys_index_events_nodup; constructor].
  rewrite lookup_scan in Hin.
  destruct (occurrences_of name (top_level_events (split newline js_code)));
    [discriminate | injection Hin as <-; reflexivity].
Qed.

Lemma syn_defects_types (js_code : string) :
  map err_type (syn_defects js_code) = map error_type_of (unbalanced_kinds js_code).
Proof.
  unfold syn_defects. induction (unbalanced_kinds js_code) as [|k ks IH]; simpl.
  - reflexivity.
  - rewrite IH. reflexivity.
Qed.

Lemma syn_defects_of_kind (k : delimiter) (js_code : string) :
  filter (has_type (error_type_of k)) (syn_defects js_code)
  = if (net k js_code =? 0)%Z then []
    else [unbalanced_defect k (Z.abs_N (net k js_code)) (0 <? net k js_code)%Z].
Proof.
  unfold syn_defects, unbalanced_kinds, all_delimiters. simpl filter at 2.
  destruct k;
    destruct (net Brace js_code =? 0)%Z, (net Paren js_code =? 0)%Z,
      (net Bracket js_code =? 0)%Z; reflexivity.
Qed.

Lemma duplicate_errors_variables (d : declaration_index) :
  NoDup (keys d) -> NoDup (map err_variable (duplicate_errors d)).
Proof.
  unfold keys. induction d as [|[k occs] rest IH]; simpl; intros Hnd.
  - constructor.
  - inversion Hnd as [|k' ks Hnotin Hnd']; subst.
    destruct (1 <? List.length occs)%nat; simpl; [|auto].
    constructor; [|auto].
    intros Hin. apply Hnotin. rewrite in_map_iff in Hin.
    destruct Hin as (e & He & Hin). apply duplicate_errors_in in Hin.
    destruct Hin as (name & occs' & Hin & _ & ->). simpl in He.
    injection He as ->. apply (in_map fst) in Hin. exact Hin.
Qed.

(** The defects of the duplicate checker, one by one. *)
Lemma dup_defects_in (script : string) (e : error) :
  In e (dup_defects script)
  <-> exists name,
        1 < List.length (occurrences_of name (top_level_events (split newline script)))
        /\ e = duplicate_error name
                 (occurrences_of name (top_level_events (split newline script))).
Proof.
  unfold dup_defects. rewrite duplicate_errors_in. split.
  - intros (name & occs & Hin & Hlen & ->). exists name.
    apply in_lookup in Hin; [|apply keys_index_events_nodup; constructor].
    rewrite lookup_scan in Hin.
    destruct (occurrences_of name (top_level_events (split newline script))) as [|o os];
      [discriminate|].
    injection Hin as <-. auto.
  - intros (name & Hlen & ->).
    exists name, (occurrences_of name (top_level_events (split newline script))).
    split; [|auto]. apply lookup_in. rewrite lookup_scan.
    destruct (occurrences_of name (top_level_events (split newline script)));
      [simpl in Hlen; lia | reflexivity].
Qed.

Lemma dup_defects_nodup (script : string) : NoDup (dup_defects script).
Proof.
  apply (NoDup_map_inv err_variable). unfold dup_defects.
  apply duplicate_errors_variables, keys_index_events_nodup. constructor.
Qed.

Lemma syn_defects_explicit (script : string) :
  syn_defects script
  = ((if (net Brace script =? 0)%Z then []
      else [unbalanced_defect Brace (Z.abs_N (net Brace script)) (0 <? net Brace script)%Z])
     ++ (if (net Paren script =? 0)%Z then []
         else [unbalanced_defect Paren (Z.abs_N (net Paren script))
                 (0 <? net Paren script)%Z])
     ++ (if (net Bracket script =? 0)%Z then []
         else [unbalanced_defect Bracket (Z.abs_N (net Bracket script))
                 (0 <? net Bracket script)%Z]))%list.
Proof.
  unfold syn_defects, unbalanced_kinds, all_delimiters. simpl filter.
  destruct (net Brace script =? 0)%Z, (net Paren script =? 0)%Z,
    (net Bracket script =? 0)%Z; reflexivity.
Qed.

(** ** The invocations on their namespaces *)

Lemma dup_line_body_step (n : dup_names) (line_num : nat) (line : string) :
  dn_patterns n = patterns ->
  dup_line_body n (line_num, line)
  = Returned
      (mkDupNames (dn_errors n)
         (if (dn_brace_depth n <=? 0)%Z
          then index_events (dn_global_declarations n) (line_events line_num line)
          else dn_global_declarations n)
         patterns (dn_lines n) (dn_brace_depth n + delta line)%Z).
Proof.
  intros Hp. unfold dup_line_body, delta, set_dn_brace_depth, set_dn_global_declarations.
  cbn [dn_brace_depth dn_patterns dn_global_declarations dn_errors dn_lines].
  replace (dn_brace_depth n + (count "{" line - count "}" line)
           - count "{" line + count "}" line)%Z with (dn_brace_depth n) by lia.
  rewrite Hp. destruct (dn_brace_depth n <=? 0)%Z.
  - rewrite scan_patterns_events. reflexivity.
  - reflexivity.
Qed.

(** The line loop on the namespace does what the line loop on the pair
    (depth, index) does, and touches no other name. *)
Lemma dup_lines_loop (items : list (nat * string)) :
  forall n,
    dn_patterns n = patterns ->
    for_each dup_line_body items n
    = match for_each scan_line items (dn_brace_depth n, dn_global_declarations n) with
      | Returned st => Returned (mkDupNames (dn_errors n) (snd st) patterns (dn_lines n) (fst st))
      | Raised e => Raised e
      end.
Proof.
  induction items as [|[line_num line] rest IH]; intros n Hp; cbn [for_each].
  - destruct n as [e g p l d]. simpl in Hp. subst p. reflexivity.
  - rewrite (dup_line_body_step _ _ _ Hp), scan_line_step. cbn [bind].
    rewrite IH by reflexivity. reflexivity.
Qed.

Lemma dup_report_loop (items : list (string * list occurrence)) :
  forall n,
    fold_left dup_report_body items n
    = set_dn_errors (dn_errors n ++ duplicate_errors items)%list n.
Proof.
  induction items as [|[var_name occurrences] rest IH]; intros n; cbn [fold_left duplicate_errors].
  - destruct n. unfold set_dn_errors. simpl. rewrite app_nil_r. reflexivity.
  - rewrite IH. unfold dup_report_body.
    destruct (1 <? List.length occurrences)%nat.
    + unfold set_dn_errors. simpl. rewrite <- app_assoc. reflexivity.
    + reflexivity.
Qed.

(** Whatever the namespace holds on entry, the invocation returns what the
    function returns. *)
Lemma invoke_check_duplicate_declarations_returns (n : dup_names) (js_code : string) :
  exists n',
    invoke_check_duplicate_declarations n js_code = Returned (n', dup_defects js_code).
Proof.
  unfold invoke_check_duplicate_declarations.
  unfold set_dn_brace_depth, set_dn_lines, set_dn_patterns, set_dn_global_declarations.
  cbn [dn_brace_depth dn_global_declarations dn_lines dn_errors dn_patterns].
  rewrite dup_lines_loop by reflexivity.
  cbn [dn_brace_depth dn_global_declarations dn_lines dn_errors dn_patterns].
  pose proof (scan_lines_events js_code) as Hscan. unfold scan_lines in Hscan.
  cbv zeta in Hscan.
  match goal with
  | |- context [for_each scan_line ?items ?st] =>
      change (for_each scan_line items st)
        with (for_each scan_line (enumerate (split newline js_code) 1)
                (0%Z, @nil (string * list occurrence) : declaration_index))
  end.
  unfold declaration_index in *. rewrite Hscan. cbn [bind fst snd].
  rewrite dup_report_loop. eexists. reflexivity.
Qed.

Lemma append_unmatched_unmatched (what : string) (k : Z) (errors : list error) :
  append_unmatched what k errors = (errors ++ unmatched what k)%list.
Proof.
  unfold append_unmatched, unmatched. destruct (k =? 0)%Z; simpl;
    [rewrite app_nil_r|]; reflexivity.
Qed.

Lemma invoke_check_syntax_errors_returns (n : syn_names) (js_code : string) :
  exists n',
    invoke_check_syntax_errors n js_code = Returned (n', syn_defects js_code).
Proof.
  pose proof (check_syntax_errors_returns js_code) as Hpure.
  unfold check_syntax_errors in Hpure. injection Hpure as Hpure.
  unfold invoke_check_syntax_errors.
  cbn [sn_errors sn_brace_count sn_paren_count sn_bracket_count].
  rewrite !append_unmatched_unmatched, !app_nil_l, <- !app_assoc, Hpure.
  eexists. reflexivity.
Qed.

Lemma run_invocation_result (s : interpreter) (c : invocation) :
  snd (run_invocation s c)
  = match c with
    | CheckDuplicates js_code => check_duplicate_declarations js_code
    | CheckSyntax js_code => check_syntax_errors js_code
    end.
Proof.
  destruct c as [js_code|js_code]; unfold run_invocation.
  - destruct (invoke_check_duplicate_declarations_returns (dup_ns s) js_code) as [n' ->].
    rewrite check_duplicate_declarations_returns. reflexivity.
  - destruct (invoke_check_syntax_errors_returns (syn_ns s) js_code) as [n' ->].
    rewrite check_syntax_errors_returns. reflexivity.
Qed.

(** * The claims *)

(** ** Scenario A *)

(** C1, as the specification states it, does not hold: on the text of
    scenario A the duplicate checker does not report a defect for [a] with
    exactly the two occurrences of lines 1 and 3. *)
Lemma scenario_a_not_two_occurrences :
  ~ (exists e o1 o2,
        check_duplicate_declarations scenario_a = Returned [e]
        /\ err_variable e = Some "a"
        /\ err_occurrences e = Some [o1; o2]
        /\ occ_line o1 = 1 /\ occ_line o2 = 3).
Proof.
  intros (e & o1 & o2 & Hrun & _ & Hocc & _).
  vm_compute in Hrun. injection Hrun as <-. discriminate Hocc.
Qed.

(** C1 (amended): on the text of scenario A the duplicate checker reports
    exactly one duplicate-declaration defect, for [a], with three
    occurrences, at lines 1, 2 and 3: the braces of line 2 open and close on
    that line, the depth before line 2 is 0, and its declaration is filed
    as a top-level one. *)
Theorem scenario_a_three_occurrences :
  check_duplicate_declarations scenario_a
  = Returned [duplicate_error "a"
                [(1, "let", "let a = 1;");
                 (2, "let", "function f(){ let a = 2; }");
                 (3, "let", "let a = 3;")]]
  /\ depth_before (split newline scenario_a) 2 = 0%Z.
Proof. split; vm_compute; reflexivity. Qed.

(** ** The scope tracker *)

(** C2: when the line loop reaches line [i] its depth is [depth_before],
    the braces of the lines [1 .. i-1]; the test of the loop body is on that
    depth, the braces of line [i] itself taken back out, and the line is
    scanned for declarations exactly when it is at most 0; the index after
    the loop holds an occurrence exactly when a pattern matched on a line
    whose [depth_before] is at most 0. *)
Theorem top_level_iff_depth_before (js_code : string) :
  let lines := split newline js_code in
  (forall i line,
      1 <= i -> nth_error lines (i - 1) = Some line ->
      exists d,
        for_each scan_line (enumerate (firstn (i - 1) lines) 1) (0%Z, [])
        = Returned (depth_before lines i, d)
        /\ scan_line (depth_before lines i, d) (i, line)
           = if (depth_before lines i <=? 0)%Z
             then d' <- for_each (scan_pattern i line) patterns d ;;
                  Returned (depth_before lines (S i), d')
             else Returned (depth_before lines (S i), d))
  /\ exists depth index,
       scan_lines js_code = Returned (depth, index)
       /\ forall name o,
            (exists occs, In (name, occs) index /\ In o occs)
            <-> exists i line kw ty m,
                  1 <= i /\ nth_error lines (i - 1) = Some line
                  /\ (depth_before lines i <= 0)%Z
                  /\ In (kw, ty) patterns /\ In m (finditer kw line)
                  /\ group m 1 = Returned name
                  /\ o = (i, ty, strip line).
Proof.
  intros lines. split.
  - intros i line Hi Hnth. destruct (scan_prefix lines i) as [d Hd].
    exists d. split; [exact Hd|].
    rewrite scan_line_step, (depth_before_succ _ _ _ Hi Hnth).
    destruct (depth_before lines i <=? 0)%Z; [|reflexivity].
    rewrite scan_patterns_events. reflexivity.
  - exists (sum_deltas lines), (index_events [] (top_level_events lines)).
    split; [apply scan_lines_events|].
    intros name o. rewrite index_holds_events, top_level_events_in. split.
    + intros (i & line & Hi & Hnth & Hd & He).
      apply line_events_in in He. destruct He as (kw & ty & m & Hp & Hm & Hg & ->).
      exists i, line, kw, ty, m. auto 10.
    + intros (i & line & kw & ty & m & Hi & Hnth & Hd & Hp & Hm & Hg & ->).
      exists i, line. repeat split; try assumption.
      apply line_events_in. exists kw, ty, m. auto.
Qed.

(** C2 at work: line 2 of scenario A has depth 0 before it, so its
    declaration is in the index. *)
Lemma top_level_iff_depth_before_witness :
  exists depth index,
    scan_lines scenario_a = Returned (depth, index)
    /\ exists occs, In ("a", occs) index
                    /\ In (2, "let", "function f(){ let a = 2; }") occs.
Proof.
  destruct (top_level_iff_depth_before scenario_a) as (_ & depth & index & Hrun & Hiff).
  exists depth, index. split; [exact Hrun|].
  apply Hiff.
  exists 2, "function f(){ let a = 2; }", "let", "let",
    (mkMatch 14 19 "let a" ["a"]).
  repeat split; vm_compute; auto.
  intros H; discriminate H.
Defined.

(** ** The balance checker *)

(** C3: for each delimiter kind the net count is the number of opening
    characters minus the number of closing characters of the whole text;
    the balance checker returns a defect of that kind exactly when the net
    count is not 0, and that defect carries the absolute value of the net
    count and the direction of its sign. *)
Theorem unbalanced_iff_net_nonzero (js_code : string) (k : delimiter) :
  net k js_code
  = (Z.of_nat (occurrences_of_char (opener k) js_code)
     - Z.of_nat (occurrences_of_char (closer k) js_code))%Z
  /\ exists errs,
       check_syntax_errors js_code = Returned errs
       /\ filter (has_type (error_type_of k)) errs
          = if (net k js_code =? 0)%Z then []
            else [unbalanced_defect k (Z.abs_N (net k js_code)) (0 <? net k js_code)%Z].
Proof.
  split.
  - unfold net. rewrite !count_filter. reflexivity.
  - exists (syn_defects js_code). split.
    + apply check_syntax_errors_returns.
    + apply syn_defects_of_kind.
Qed.

(** ** Merge and report *)

(** C4: for a block the block loop appends to the list of errors, under the
    number of the block, first the duplicate-declaration defects and then
    the unbalanced-delimiter defects.  The former are, each once, the
    defects of the identifiers captured more than once on top-level lines,
    with all their occurrences, in the order of the first lines of the
    identifiers; the latter are the defects of the kinds whose net count is
    not 0, brace first, then parenthesis, then bracket. *)
Theorem merged_defects_order (i : nat) (script : string) (all_errors : list (nat * error)) :
  let events := top_level_events (split newline script) in
  exists dups syns,
    check_duplicate_declarations script = Returned dups
    /\ check_syntax_errors script = Returned syns
    /\ check_block all_errors (i, script)
       = Returned (all_errors ++ map (fun e => (i, e)) dups
                   ++ map (fun e => (i, e)) syns)%list
    /\ (forall e,
           In e dups
           <-> exists name,
                 1 < List.length (occurrences_of name events)
                 /\ e = mkError "duplicate_declaration" (Some name)
                          (Some (occurrences_of name events))
                          (duplicate_message name (occurrences_of name events)))
    /\ NoDup dups
    /\ StronglySorted le (map error_first_line dups)
    /\ syns
       = ((if (net Brace script =? 0)%Z then []
           else [unbalanced_defect Brace (Z.abs_N (net Brace script))
                   (0 <? net Brace script)%Z])
          ++ (if (net Paren script =? 0)%Z then []
              else [unbalanced_defect Paren (Z.abs_N (net Paren script))
                      (0 <? net Paren script)%Z])
          ++ (if (net Bracket script =? 0)%Z then []
              else [unbalanced_defect Bracket (Z.abs_N (net Bracket script))
                      (0 <? net Bracket script)%Z]))%list.
Proof.
  intros events. exists (dup_defects script), (syn_defects script).
  split; [apply check_duplicate_declarations_returns|].
  split; [apply check_syntax_errors_returns|].
  split.
  { rewrite check_block_returns. unfold block_defects, tag_block.
    rewrite map_app. reflexivity. }
  split; [intros e; apply dup_defects_in|].
  split; [apply dup_defects_nodup|].
  split.
  - unfold dup_defects. apply duplicate_errors_sorted.
    destruct (scan_index_ok (split newline script)) as [b [_ Hs]]. exact Hs.
  - apply syn_defects_explicit.
Qed.

(** C4 at work: in block 3 the identifier [b], first met on line 1, comes
    before [a], first met on line 2, and both before the parenthesis and
    the bracket left open. *)
Lemma merged_defects_order_witness :
  check_block [] (3, join_lines ["var b = 1;"; "let a = 2;"; "let a = 3;"; "var b = 4; (["])
  = Returned
      [(3, duplicate_error "b" [(1, "var", "var b = 1;"); (4, "var", "var b = 4; ([")]);
       (3, duplicate_error "a" [(2, "let", "let a = 2;"); (3, "let", "let a = 3;")]);
       (3, unbalanced_defect Paren 1 true);
       (3, unbalanced_defect Bracket 1 true)].
Proof.
  destruct (merged_defects_order 3
              (join_lines ["var b = 1;"; "let a = 2;"; "let a = 3;"; "var b = 4; (["]) [])
    as (dups & syns & Hd & Hs & Hblock & _).
  rewrite Hblock. vm_compute in Hd, Hs.
  injection Hd as <-. injection Hs as <-. reflexivity.
Defined.

(** ** Duplicates *)

(** C5, as the specification states it, does not hold.  In the first text
    the identifier [$] is declared twice at top level and no defect is
    reported; in the second the identifier [a] is declared once at top
    level and nowhere else, and a defect for [a] is reported. *)
Lemma declared_twice_not_reported :
  (spec_declarations true scenario_dollar "$" = [(1, "let"); (2, "let")]
   /\ check_duplicate_declarations scenario_dollar = Returned [])
  /\ (spec_declarations true scenario_dollar_suffix "a" = [(2, "let")]
      /\ spec_declarations false scenario_dollar_suffix "a" = []
      /\ exists errs,
           check_duplicate_declarations scenario_dollar_suffix = Returned errs
           /\ filter (error_is_for "a") errs
              = [duplicate_error "a"
                   [(1, "let", "let a$ = 1;"); (2, "let", "let a = 2;")]]).
Proof.
  repeat split; try (vm_compute; reflexivity).
  eexists. split; vm_compute; reflexivity.
Qed.

(** C5 (amended): a name is counted where one of the three patterns captures
    it, as a run of word characters, on a line whose [depth_before] is at
    most 0.  The checker reports one defect for a name exactly when it is
    captured so more than once, with all these occurrences in line order:
    captured exactly twice, under any mix of the keywords, one defect with
    exactly 2 occurrences; captured at most once, no defect for it. *)
Theorem captured_twice_one_defect (js_code name : string) :
  let occs := occurrences_of name (top_level_events (split newline js_code)) in
  exists errs,
    check_duplicate_declarations js_code = Returned errs
    /\ filter (error_is_for name) errs
       = (if (1 <? List.length occs)%nat then [duplicate_error name occs] else [])
    /\ StronglySorted le (map occ_line occs)
    /\ (List.length occs = 2 ->
        exists o1 o2,
          occs = [o1; o2]
          /\ filter (error_is_for name) errs = [duplicate_error name [o1; o2]]
          /\ occ_line o1 <= occ_line o2)
    /\ (List.length occs <= 1 -> filter (error_is_for name) errs = []).
Proof.
  intros occs. exists (dup_defects js_code).
  assert (StronglySorted le (map occ_line occs)) as Hsorted
      by (apply occurrences_of_sorted, top_level_events_sorted).
  split; [apply check_duplicate_declarations_returns|].
  rewrite dup_defects_for. fold occs. cbv zeta.
  split; [reflexivity|]. split; [exact Hsorted|]. split.
  - intros Hlen. destruct occs as [|o1 [|o2 [|o3 rest]]]; try discriminate.
    exists o1, o2. repeat split.
    simpl in Hsorted. inversion Hsorted as [|n ns _ Hle]; subst.
    inversion Hle; assumption.
  - intros Hlen. destruct (Nat.ltb_spec 1 (List.length occs)); [lia | reflexivity].
Qed.

(** C5 (amended) at work: [total] is captured twice at top level, under
    [var] and [const], and once in a nested block. *)
Lemma captured_twice_one_defect_witness :
  exists errs,
    check_duplicate_declarations scenario_mixed = Returned errs
    /\ filter (error_is_for "total") errs
       = [duplicate_error "total"
            [(1, "var", "var total = 0;"); (5, "const", "const total = 2;")]].
Proof.
  destruct (captured_twice_one_defect scenario_mixed "total")
    as (errs & Hrun & _ & _ & Htwice & _).
  exists errs. split; [exact Hrun|].
  destruct (Htwice eq_refl) as (o1 & o2 & Hoccs & Hfilter & _).
  rewrite Hfilter. vm_compute in Hoccs. injection Hoccs as <- <-. reflexivity.
Defined.

(** ** Failure semantics *)

(** C6: on every text, the empty one included, the duplicate checker and
    the balance checker return a defect list: no call of theirs raises, and
    both are defined by recursion on the text. *)
Theorem checkers_never_raise (js_code : string) :
  (exists errs, check_duplicate_declarations js_code = Returned errs)
  /\ (exists errs, check_syntax_errors js_code = Returned errs)
  /\ check_duplicate_declarations EmptyString = Returned []
  /\ check_syntax_errors EmptyString = Returned [].
Proof.
  split; [eexists; apply check_duplicate_declarations_returns|].
  split; [eexists; apply check_syntax_errors_returns|].
  split; reflexivity.
Qed.

(** C7: an invocation of a checker starts on the names the earlier
    invocations left, assigns each of them before it reads it, and returns
    what the function returns on the text alone: run on a text after any
    invocations, and run again on the same text after any further ones, a
    checker returns the same defect list both times. *)
Theorem second_run_identical (s0 : interpreter) (before between : list invocation)
  (c : invocation) :
  let first := run_invocation (run_invocations s0 before) c in
  let second := run_invocation (run_invocations (fst first) between) c in
  snd second = snd first
  /\ snd first
     = match c with
       | CheckDuplicates js_code => check_duplicate_declarations js_code
       | CheckSyntax js_code => check_syntax_errors js_code
       end.
Proof.
  intros first second. unfold first, second.
  rewrite !run_invocation_result. split; reflexivity.
Qed.

(** C7 at work: the first run leaves a depth of 1 and two errors in the
    names; the second run on the same text returns the same list. *)
Lemma second_run_identical_witness :
  let s0 := mkInterpreter (mkDupNames [] [] [] [] 0%Z) (mkSynNames [] 0%Z 0%Z 0%Z) in
  let c := CheckDuplicates (join_lines ["let a; var b;"; "let a; var b; {"]) in
  let s1 := fst (run_invocation s0 c) in
  dn_brace_depth (dup_ns s1) = 1%Z
  /\ List.length (dn_errors (dup_ns s1)) = 2
  /\ snd (run_invocation s1 c) = snd (run_invocation s0 c).
Proof.
  intros s0 c s1. split; [reflexivity|]. split; [reflexivity|].
  exact (proj1 (second_run_identical s0 [] [] c)).
Defined.

(** ** The run *)

(** C8, as the specification states it, does not hold: a run whose
    templates directory does not exist has no document, so no block of any
    document has a defect, and it ends with status 1. *)
Lemma missing_directory_fails_without_defect :
  ~ (forall templates,
        main templates = Returned 0%Z
        <-> forall html script,
              In html (documents_of templates) ->
              In script (extract_javascript_from_html html) ->
              check_duplicate_declarations script = Returned []
              /\ check_syntax_errors script = Returned []).
Proof.
  intros Hclaim. destruct (Hclaim None) as [_ Hzero].
  assert (main None = Returned 0%Z) as Habs by (apply Hzero; intros html script []).
  discriminate Habs.
Qed.

(** C8 (amended): when the templates directory exists and its files are
    read, a document is valid exactly when each of its blocks has no
    defect, and the run over the documents ends with status 0 exactly when
    no block of any document has a defect, and with status 1 otherwise. *)
Theorem run_succeeds_iff_no_defect (html_files : list string) :
  let clean :=
    forall html script,
      In html html_files -> In script (extract_javascript_from_html html) ->
      check_duplicate_declarations script = Returned []
      /\ check_syntax_errors script = Returned [] in
  (forall html,
      validate_html_file html
      = Returned (forallb block_clean (extract_javascript_from_html html)))
  /\ (main (Some html_files) = Returned 0%Z <-> clean)
  /\ (main (Some html_files) = Returned 1%Z <-> ~ clean).
Proof.
  intros clean. split; [apply validate_html_file_returns|].
  rewrite main_returns. unfold clean. rewrite <- documents_clean_iff.
  destruct (forallb document_clean html_files); split; split;
    try discriminate; try tauto; try congruence.
Qed.

(** C8 at work: one document with an unbalanced block fails the run. *)
Lemma run_succeeds_iff_no_defect_witness :
  main (Some ["<script>let a = 1;</script>"; "<script>f(</script>"]) = Returned 1%Z.
Proof.
  apply (run_succeeds_iff_no_defect
           ["<script>let a = 1;</script>"; "<script>f(</script>"]).
  intros Hclean.
  destruct (Hclean "<script>f(</script>" "f(") as [_ Hsyn].
  - right. left. reflexivity.
  - left. reflexivity.
  - vm_compute in Hsyn. discriminate Hsyn.
Defined.

(** C9: a document without script blocks is valid, has no defect, and
    leaves the exit status of the run as it is without it. *)
Theorem no_blocks_is_noop (html : string) :
  extract_javascript_from_html html = [] ->
  validate_html_file html = Returned true
  /\ collect_errors (extract_javascript_from_html html) = Returned []
  /\ forall before after,
       main (Some (before ++ html :: after)%list) = main (Some (before ++ after)%list).
Proof.
  intros Hnone. split; [|split].
  - unfold validate_html_file. rewrite Hnone. reflexivity.
  - rewrite Hnone. reflexivity.
  - intros before after. rewrite !main_returns, !forallb_app. simpl.
    unfold document_clean at 2. rewrite Hnone. reflexivity.
Qed.

Lemma no_blocks_is_noop_witness :
  validate_html_file "<p>no script here</p>" = Returned true
  /\ main (Some ["<script>f(</script>"; "<p>no script here</p>"])
     = main (Some ["<script>f(</script>"]).
Proof.
  destruct (no_blocks_is_noop "<p>no script here</p>" eq_refl) as (Hvalid & _ & Hrun).
  split; [exact Hvalid|]. exact (Hrun ["<script>f(</script>"] []).
Defined.

(** ** Names *)

(** C10: a match of a declaration pattern is the keyword at a word boundary,
    white space, and a captured name that is a maximal run of word
    characters; every identifier of the index is such a name, so a
    declaration whose name begins with another character is never filed;
    on the text [let $ = 1;\nlet $ = 2;], where [$] is declared twice at top
    level, no pattern matches and no defect is reported. *)
Theorem bound_name_is_word_run (kw line js_code : string) :
  Forall (match_shape kw line) (finditer kw line)
  /\ (exists depth index,
         scan_lines js_code = Returned (depth, index)
         /\ Forall word_name (keys index))
  /\ spec_declarations true scenario_dollar "$" = [(1, "let"); (2, "let")]
  /\ flat_map (fun p => finditer (fst p) "let $ = 1;") patterns = []
  /\ check_duplicate_declarations scenario_dollar = Returned [].
Proof.
  split; [apply Forall_forall; intros m Hm; exact (finditer_shape _ _ _ Hm)|].
  split; [|repeat split; vm_compute; reflexivity].
  eexists _, _. split; [apply scan_lines_events|].
  apply Forall_forall. intros name Hname.
  apply keys_index_events in Hname. destruct Hname as [[]|Hname].
  rewrite in_map_iff in Hname. destruct Hname as (e & <- & He).
  apply top_level_events_in in He. destruct He as (i & l & _ & _ & _ & He).
  exact (line_events_word_name _ _ _ He).
Qed.

(** * Further properties of the code *)

(** ** Strings *)

Lemma length_append (a b : string) :
  String.length (a ++ b) = String.length a + String.length b.
Proof. induction a as [|x a IH]; simpl; [reflexivity | rewrite IH; reflexivity]. Qed.

Lemma strip_prefix_app (lit r : string) : strip_prefix lit (lit ++ r) = Some r.
Proof.
  induction lit as [|a lit IH]; simpl; [reflexivity|].
  rewrite Ascii.eqb_refl. exact IH.
Qed.

(** A literal at the front of [x] is at the front of [x ++ y]. *)
Lemma strip_prefix_extend (lit : string) :
  forall x y r, strip_prefix lit x = Some r -> strip_prefix lit (x ++ y) = Some (r ++ y).
Proof.
  induction lit as [|a lit IH]; intros x y r; simpl.
  - intros [= ->]. reflexivity.
  - destruct x as [|b x]; [discriminate|]. simpl.
    destruct (Ascii.eqb a b); [apply IH | discriminate].
Qed.

Lemma strip_prefix_nonempty (lit : string) :
  lit <> EmptyString -> strip_prefix lit EmptyString = None.
Proof. destruct lit; [contradiction | reflexivity]. Qed.

Lemma find_sub_some (needle : string) (s : string) :
  forall before after,
    find_sub needle s = Some (before, after) -> s = before ++ needle ++ after.
Proof.
  induction s as [|x s IH]; intros before after; simpl.
  - destruct (strip_prefix needle EmptyString) as [r|] eqn:Hp; [|discriminate].
    intros [= <- <-]. apply strip_prefix_some in Hp. exact Hp.
  - destruct (strip_prefix needle (String x s)) as [r|] eqn:Hp.
    + intros [= <- <-]. apply strip_prefix_some in Hp. exact Hp.
    + destruct (find_sub needle s) as [[b a]|] eqn:Hf; [|discriminate].
      intros [= <- <-]. rewrite (IH _ _ eq_refl). reflexivity.
Qed.

Lemma find_sub_unfold (needle : string) (x : ascii) (s : string) :
  find_sub needle (String x s)
  = match strip_prefix needle (String x s) with
    | Some after => Some (EmptyString, after)
    | None =>
        match find_sub needle s with
        | Some (before, after) => Some (String x before, after)
        | None => None
        end
    end.
Proof. reflexivity. Qed.

(** What is before the first occurrence holds no occurrence. *)
Lemma find_sub_before (needle : string) (s : string) :
  needle <> EmptyString ->
  forall before after,
    find_sub needle s = Some (before, after) -> find_sub needle before = None.
Proof.
  intros Hne. induction s as [|x s IH]; intros before after.
  - simpl. rewrite strip_prefix_nonempty by exact Hne. discriminate.
  - rewrite find_sub_unfold.
    destruct (strip_prefix needle (String x s)) as [r|] eqn:Hp.
    + intros [= <- <-]. simpl. rewrite strip_prefix_nonempty by exact Hne. reflexivity.
    + destruct (find_sub needle s) as [[b a]|] eqn:Hf; [|discriminate].
      intros [= <- <-]. rewrite find_sub_unfold.
      rewrite (IH _ _ eq_refl).
      destruct (strip_prefix needle (String x b)) as [r|] eqn:Hpb; [|reflexivity].
      apply find_sub_some in Hf. subst s.
      apply (strip_prefix_extend _ _ (needle ++ a)) in Hpb.
      simpl in Hpb. simpl in Hp. congruence.
Qed.

(** No occurrence in a text, no occurrence in its tails. *)
Lemma find_sub_none_tail (needle : string) (x y : string) :
  find_sub needle (x ++ y) = None -> find_sub needle y = None.
Proof.
  induction x as [|c x IH]; intros H; [exact H|].
  apply IH. change (String c x ++ y) with (String c (x ++ y)) in H.
  rewrite find_sub_unfold in H.
  destruct (strip_prefix needle (String c (x ++ y))); [discriminate|].
  destruct (find_sub needle (x ++ y)) as [[b a]|]; [discriminate | reflexivity].
Qed.

Lemma find_sub_app_some (needle x y : string) :
  find_sub needle (x ++ needle ++ y) <> None.
Proof.
  induction x as [|c x IH].
  - simpl. destruct (needle ++ y) as [|c s] eqn:Hs.
    + simpl. destruct needle; [discriminate | discriminate Hs].
    + rewrite find_sub_unfold. rewrite <- Hs, strip_prefix_app. discriminate.
  - change (String c x ++ needle ++ y) with (String c (x ++ needle ++ y)).
    rewrite find_sub_unfold.
    destruct (strip_prefix needle (String c (x ++ needle ++ y))); [discriminate|].
    destruct (find_sub needle (x ++ needle ++ y)) as [[b a]|]; [discriminate | contradiction].
Qed.

Lemma span_run (p : ascii -> bool) (run tl : string) :
  all_chars p run ->
  match first_char tl with Some c => p c = false | None => True end ->
  span p (run ++ tl) = (run, tl).
Proof.
  intros Hall Htl. induction run as [|x run IH]; simpl.
  - destruct tl as [|c tl]; [reflexivity|]. simpl in *. rewrite Htl. reflexivity.
  - simpl in Hall. destruct Hall as [Hx Hall]. rewrite Hx, (IH Hall). reflexivity.
Qed.

(** ** The extraction of the script blocks *)

(** What a successful attempt of the script pattern has matched. *)
Lemma script_here_some (s body : string) (len : nat) :
  script_here s = Some (body, len) ->
  exists attrs after,
    s = "<script" ++ attrs ++ ">" ++ body ++ "</script>" ++ after
    /\ all_chars (other_than ">") attrs
    /\ find_sub "</script>" body = None
    /\ len = 17 + String.length attrs + String.length body.
Proof.
  unfold script_here.
  destruct (strip_prefix "<script" s) as [after_tag|] eqn:Htag; [|discriminate].
  destruct (span (fun c => negb (Ascii.eqb c ">")) after_tag) as [attrs after_attrs] eqn:Hspan.
  destruct after_attrs as [|gt inner]; [discriminate|].
  destruct (find_sub "</script>" inner) as [[b after]|] eqn:Hfind; [|discriminate].
  intros [= <- <-]. exists attrs, after.
  apply strip_prefix_some in Htag. apply span_spec in Hspan.
  destruct Hspan as (-> & Hattrs & Hgt). simpl in Hgt.
  apply negb_false_iff, Ascii.eqb_eq in Hgt. subst gt.
  pose proof (find_sub_before "</script>" inner ltac:(discriminate) _ _ Hfind) as Hbefore.
  apply find_sub_some in Hfind. subst inner s.
  repeat split; try assumption. lia.
Qed.

Lemma script_here_other (c : ascii) (s : string) :
  other_than "<" c = true -> script_here (String c s) = None.
Proof.
  unfold other_than, script_here. intros Hc.
  change (strip_prefix "<script" (String c s))
    with (if Ascii.eqb "<" c then strip_prefix "script" s else None).
  rewrite Ascii.eqb_sym. apply negb_true_iff in Hc. rewrite Hc. reflexivity.
Qed.

Lemma findall_scripts_skip (x y : string) :
  findall_scripts (String.length x) (x ++ y) = findall_scripts 0 y.
Proof. induction x as [|c x IH]; simpl; [reflexivity | exact IH]. Qed.

Lemma findall_scripts_no_tag (pre s : string) :
  all_chars (other_than "<") pre ->
  findall_scripts 0 (pre ++ s) = findall_scripts 0 s.
Proof.
  induction pre as [|c pre IH]; simpl; intros Hall; [reflexivity|].
  destruct Hall as [Hc Hall].
  change (match script_here (String c (pre ++ s)) with
          | Some (body, len) => body :: findall_scripts (len - 1) (pre ++ s)
          | None => findall_scripts 0 (pre ++ s)
          end = findall_scripts 0 s).
  rewrite (script_here_other _ _ Hc). exact (IH Hall).
Qed.

(** The first character of the closing tag occurs nowhere else in it, so an
    occurrence cannot begin in [x] and end in a closing tag put after it. *)
Lemma strip_prefix_no_overlap (c0 : ascii) (lit : string) :
  count c0 lit = 0%Z ->
  forall x rest,
    strip_prefix lit x = None -> strip_prefix lit (x ++ String c0 rest) = None.
Proof.
  induction lit as [|a lit IH]; intros Hc x rest; simpl.
  - discriminate.
  - simpl in Hc.
    assert (Ascii.eqb a c0 = false /\ count c0 lit = 0%Z) as [Ha Hc'].
    { pose proof (count_filter c0 lit). destruct (Ascii.eqb a c0); split; try reflexivity; lia. }
    destruct x as [|b x]; simpl.
    + rewrite Ha. reflexivity.
    + destruct (Ascii.eqb a b); [apply IH; exact Hc' | reflexivity].
Qed.

Lemma strip_prefix_no_overlap_whole (c0 : ascii) (tl x rest : string) :
  count c0 tl = 0%Z -> x <> EmptyString ->
  strip_prefix (String c0 tl) x = None ->
  strip_prefix (String c0 tl) (x ++ String c0 rest) = None.
Proof.
  intros Hc Hx. destruct x as [|b x]; [contradiction|]. simpl.
  destruct (Ascii.eqb c0 b); [apply strip_prefix_no_overlap; exact Hc | reflexivity].
Qed.

Lemma find_sub_closing_tag (body after : string) :
  find_sub "</script>" body = None ->
  find_sub "</script>" (body ++ "</script>" ++ after) = Some (body, after).
Proof.
  induction body as [|c body IH]; intros Hnone.
  - reflexivity.
  - change (String c body ++ "</script>" ++ after)
      with (String c (body ++ "</script>" ++ after)).
    rewrite find_sub_unfold in *.
    destruct (strip_prefix "</script>" (String c body)) eqn:Hp; [discriminate|].
    destruct (find_sub "</script>" body) as [[b a]|] eqn:Hf; [discriminate|].
    rewrite (IH eq_refl).
    assert (strip_prefix "</script>" (String c (body ++ "</script>" ++ after)) = None) as ->;
      [|reflexivity].
    apply (strip_prefix_no_overlap_whole "<" "/script>" (String c body) ("/script>" ++ after));
      [reflexivity | discriminate | exact Hp].
Qed.

Lemma script_here_wrapped (attrs body after : string) :
  all_chars (other_than ">") attrs ->
  find_sub "</script>" body = None ->
  script_here ("<script" ++ attrs ++ ">" ++ body ++ "</script>" ++ after)
  = Some (body, 17 + String.length attrs + String.length body).
Proof.
  intros Hattrs Hbody. unfold script_here.
  rewrite strip_prefix_app.
  change (fun c => negb (Ascii.eqb c ">")) with (other_than ">").
  rewrite (span_run (other_than ">") attrs (">" ++ body ++ "</script>" ++ after) Hattrs)
    by (simpl; reflexivity).
  change (">" ++ body ++ "</script>" ++ after)
    with (String ">" (body ++ "</script>" ++ after)).
  cbv beta iota. rewrite (find_sub_closing_tag _ _ Hbody). f_equal. f_equal. lia.
Qed.

Lemma findall_scripts_unfold (c : ascii) (rest : string) :
  findall_scripts 0 (String c rest)
  = match script_here (String c rest) with
    | Some (body, len) => body :: findall_scripts (len - 1) rest
    | None => findall_scripts 0 rest
    end.
Proof. reflexivity. Qed.

Lemma extract_wrapped (attrs body post : string) :
  all_chars (other_than ">") attrs ->
  find_sub "</script>" body = None ->
  findall_scripts 0 ("<script" ++ attrs ++ ">" ++ body ++ "</script>" ++ post)
  = body :: findall_scripts 0 post.
Proof.
  intros Hattrs Hbody.
  change ("<script" ++ attrs ++ ">" ++ body ++ "</script>" ++ post)
    with (String "<" ("script" ++ attrs ++ ">" ++ body ++ "</script>" ++ post)).
  rewrite findall_scripts_unfold.
  change (String "<" ("script" ++ attrs ++ ">" ++ body ++ "</script>" ++ post))
    with ("<script" ++ attrs ++ ">" ++ body ++ "</script>" ++ post).
  rewrite (script_here_wrapped _ _ _ Hattrs Hbody). f_equal.
  replace ("script" ++ attrs ++ ">" ++ body ++ "</script>" ++ post)
    with (("script" ++ attrs ++ ">" ++ body ++ "</script>") ++ post)
    by (rewrite !append_assoc; reflexivity).
  replace (17 + String.length attrs + String.length body - 1)
    with (String.length ("script" ++ attrs ++ ">" ++ body ++ "</script>")).
  - apply findall_scripts_skip.
  - rewrite !length_append. simpl. lia.
Qed.

Lemma script_here_needs_closing_tag (s : string) :
  find_sub "</script>" s = None -> script_here s = None.
Proof.
  intros Hnone. destruct (script_here s) as [[body len]|] eqn:Hs; [|reflexivity].
  apply script_here_some in Hs. destruct Hs as (attrs & after & -> & _).
  exfalso.
  apply (find_sub_app_some "</script>" ("<script" ++ attrs ++ ">" ++ body) after).
  rewrite <- Hnone. f_equal. rewrite !append_assoc. reflexivity.
Qed.

Lemma findall_scripts_needs_closing_tag (s : string) :
  find_sub "</script>" s = None -> forall skip, findall_scripts skip s = [].
Proof.
  induction s as [|c rest IH]; intros Hnone skip; [reflexivity|].
  assert (find_sub "</script>" rest = None) as Hrest
      by (apply (find_sub_none_tail _ (String c EmptyString) rest); exact Hnone).
  destruct skip as [|k].
  - rewrite findall_scripts_unfold, (script_here_needs_closing_tag _ Hnone). apply IH, Hrest.
  - simpl. apply IH, Hrest.
Qed.

Lemma findall_scripts_bodies (s : string) :
  forall skip, Forall (fun body => find_sub "</script>" body = None) (findall_scripts skip s).
Proof.
  induction s as [|c rest IH]; intros skip; [constructor|].
  destruct skip as [|k]; [|apply IH].
  rewrite findall_scripts_unfold.
  destruct (script_here (String c rest)) as [[body len]|] eqn:Hs; [|apply IH].
  constructor; [|apply IH].
  apply script_here_some in Hs. destruct Hs as (_ & _ & _ & _ & Hbody & _). exact Hbody.
Qed.

Lemma findall_scripts_bound (s : string) :
  forall skip,
    total_length (findall_scripts skip s) + 17 * List.length (findall_scripts skip s)
    <= String.length s - skip.
Proof.
  unfold total_length.
  induction s as [|c rest IH]; intros skip; [simpl; lia|].
  destruct skip as [|k]; [|exact (IH k)].
  rewrite findall_scripts_unfold.
  destruct (script_here (String c rest)) as [[body len]|] eqn:Hs.
  - apply script_here_some in Hs. destruct Hs as (attrs & after & Hs & _ & _ & ->).
    specialize (IH (17 + String.length attrs + String.length body - 1)).
    apply (f_equal String.length) in Hs. rewrite !length_append in Hs.
    simpl in Hs. simpl. simpl in IH. lia.
  - specialize (IH 0). simpl. lia.
Qed.

(** X1: a script element whose body does not hold the closing tag is
    extracted with exactly that body, whatever its attributes, and the
    extraction goes on after its closing tag; text without [<] before the
    element changes nothing. *)
Theorem extract_script_element (pre attrs body post : string) :
  all_chars (other_than "<") pre ->
  all_chars (other_than ">") attrs ->
  find_sub "</script>" body = None ->
  extract_javascript_from_html
    (pre ++ "<script" ++ attrs ++ ">" ++ body ++ "</script>" ++ post)
  = body :: extract_javascript_from_html post.
Proof.
  intros Hpre Hattrs Hbody. unfold extract_javascript_from_html.
  rewrite (findall_scripts_no_tag _ _ Hpre). apply extract_wrapped; assumption.
Qed.

Lemma extract_script_element_witness :
  extract_javascript_from_html
    ("  " ++ "<script" ++ " type='module'" ++ ">" ++ "let a = 1 < 2;" ++ "</script>"
     ++ "<script>f()</script>")
  = ["let a = 1 < 2;"; "f()"].
Proof.
  rewrite (extract_script_element "  " " type='module'" "let a = 1 < 2;"
             "<script>f()</script>");
    [reflexivity | simpl; auto | simpl; auto 20 | reflexivity].
Defined.

(** X2: no extracted block holds the closing tag [</script>]: a block ends
    at the first closing tag after its opening tag. *)
Theorem extracted_blocks_end_at_first_closing_tag (html_content : string) :
  Forall (fun body => occurs "</script>" body = false)
         (extract_javascript_from_html html_content).
Proof.
  eapply Forall_impl; [|apply findall_scripts_bodies].
  intros body Hbody. unfold occurs. rewrite Hbody. reflexivity.
Qed.

(** X3: a text without any closing tag [</script>] has no block: a script
    element that is never closed is not extracted, and the document passes
    without its code being looked at. *)
Theorem unclosed_script_is_not_checked (html_content : string) :
  occurs "</script>" html_content = false ->
  extract_javascript_from_html html_content = []
  /\ validate_html_file html_content = Returned true.
Proof.
  unfold occurs. intros Hnone.
  destruct (find_sub "</script>" html_content) eqn:Hf; [discriminate|].
  assert (extract_javascript_from_html html_content = []) as Hnil
      by (apply findall_scripts_needs_closing_tag; exact Hf).
  split; [exact Hnil|]. unfold validate_html_file. rewrite Hnil. reflexivity.
Qed.

Lemma unclosed_script_is_not_checked_witness :
  validate_html_file "<script>let a = 1; let a = 2; ((( " = Returned true.
Proof.
  exact (proj2 (unclosed_script_is_not_checked "<script>let a = 1; let a = 2; ((( " eq_refl)).
Defined.

(** X4: the blocks do not overlap: their characters and the 17 characters of
    the shortest pair of tags around each fit in the text. *)
Theorem extracted_blocks_fit (html_content : string) :
  total_length (extract_javascript_from_html html_content)
  + 17 * List.length (extract_javascript_from_html html_content)
  <= String.length html_content.
Proof.
  pose proof (findall_scripts_bound html_content 0) as H.
  unfold extract_javascript_from_html. lia.
Qed.

(** ** The balance checker counts, it does not match *)

Lemma filter_length_permutation {A : Type} (p : A -> bool) (xs ys : list A) :
  Permutation xs ys -> List.length (filter p xs) = List.length (filter p ys).
Proof.
  induction 1 as [|x xs ys _ IH|x y xs|xs ys zs _ IH1 _ IH2]; simpl.
  - reflexivity.
  - destruct (p x); simpl; congruence.
  - destruct (p x), (p y); reflexivity.
  - congruence.
Qed.

Lemma count_permutation (c : ascii) (a b : string) :
  Permutation (list_ascii_of_string a) (list_ascii_of_string b) -> count c a = count c b.
Proof.
  intros Hperm. rewrite !count_filter. unfold occurrences_of_char.
  rewrite (filter_length_permutation _ _ _ Hperm). reflexivity.
Qed.

(** X5: the balance checker gives the same defects for two texts made of
    the same characters in any order: a closer before its opener, or
    delimiters closed in the wrong order, are not detected. *)
Theorem balance_ignores_order (a b : string) :
  Permutation (list_ascii_of_string a) (list_ascii_of_string b) ->
  check_syntax_errors a = check_syntax_errors b.
Proof.
  intros Hperm. unfold check_syntax_errors.
  rewrite (count_permutation "{" a b Hperm), (count_permutation "}" a b Hperm),
    (count_permutation "(" a b Hperm), (count_permutation ")" a b Hperm),
    (count_permutation "[" a b Hperm), (count_permutation "]" a b Hperm).
  reflexivity.
Qed.

Lemma balance_ignores_order_witness :
  check_syntax_errors "}{" = Returned [].
Proof.
  rewrite (balance_ignores_order "}{" "{}"); [reflexivity | apply perm_swap].
Defined.

(** ** The two checkers agree on the braces *)

Lemma split_nonempty (sep : ascii) (s : string) : split sep s <> [].
Proof.
  induction s as [|x s IH]; simpl; [discriminate|].
  destruct (Ascii.eqb x sep); [discriminate|].
  destruct (split sep s); [contradiction | discriminate].
Qed.

(** A character that is not the separator is counted once, in its line. *)
Lemma count_split (c sep : ascii) (s : string) :
  c <> sep ->
  fold_right Z.add 0%Z (map (count c) (split sep s)) = count c s.
Proof.
  intros Hc. induction s as [|x s IH]; simpl; [reflexivity|].
  destruct (Ascii.eqb_spec x sep) as [->|Hx].
  - simpl. rewrite IH. destruct (Ascii.eqb_spec sep c); [congruence | reflexivity].
  - pose proof (split_nonempty sep s) as Hne.
    destruct (split sep s) as [|first others]; [contradiction|].
    simpl in *. lia.
Qed.

Lemma sum_deltas_split (js_code : string) :
  sum_deltas (split newline js_code) = net Brace js_code.
Proof.
  unfold net, opener, closer.
  rewrite <- (count_split "{" newline js_code), <- (count_split "}" newline js_code)
    by discriminate.
  unfold sum_deltas, delta.
  induction (split newline js_code) as [|line lines IH]; simpl; [reflexivity | lia].
Qed.

(** X6: the depth the scope tracker ends with is the brace count of the
    balance checker; it ends at 0 exactly when the balance checker reports
    no unmatched braces. *)
Theorem final_depth_is_brace_count (js_code : string) :
  exists depth index errs,
    scan_lines js_code = Returned (depth, index)
    /\ check_syntax_errors js_code = Returned errs
    /\ depth = (count "{" js_code - count "}" js_code)%Z
    /\ (depth = 0%Z <-> filter (has_type "unmatched_braces") errs = []).
Proof.
  exists (net Brace js_code), (index_events [] (top_level_events (split newline js_code))),
    (syn_defects js_code).
  split; [rewrite scan_lines_events, sum_deltas_split; reflexivity|].
  split; [apply check_syntax_errors_returns|].
  split; [reflexivity|].
  change "unmatched_braces" with (error_type_of Brace).
  rewrite syn_defects_of_kind.
  destruct (Z.eqb_spec (net Brace js_code) 0); split; try tauto; try discriminate.
Qed.

(** ** The duplicate defects *)


(** X7: the duplicate checker reports an identifier at most once; every
    defect it reports is a duplicate-declaration defect that names a word
    and carries at least two occurrences, each on a line of the text, with
    the count in its message. *)
Theorem duplicate_defects_well_formed (js_code : string) :
  exists errs,
    check_duplicate_declarations js_code = Returned errs
    /\ NoDup (map err_variable errs)
    /\ Forall (fun e =>
                 exists name occs,
                   e = mkError "duplicate_declaration" (Some name) (Some occs)
                         ("Variable '" ++ name ++ "' is declared "
                          ++ str_of_nat (List.length occs) ++ " times in global scope")
                   /\ 2 <= List.length occs
                   /\ word_name name
                   /\ Forall (fun o =>
                                1 <= occ_line o
                                <= List.length (split newline js_code)) occs) errs.
Proof.
  exists (dup_defects js_code). split; [apply check_duplicate_declarations_returns|].
  split.
  - apply duplicate_errors_variables, keys_index_events_nodup. constructor.
  - apply Forall_forall. intros e He. unfold dup_defects in He.
    apply duplicate_errors_in in He. destruct He as (name & occs & Hin & Hlen & ->).
    exists name, occs. split; [reflexivity|]. split; [lia|].
    assert (forall o, In o occs -> In (name, o) (top_level_events (split newline js_code)))
      as Hevents.
    { intros o Ho. apply index_holds_events. exists occs. auto. }
    split.
    + destruct occs as [|o occs]; [simpl in Hlen; lia|].
      specialize (Hevents o (or_introl eq_refl)).
      apply top_level_events_in in Hevents.
      destruct Hevents as (i & line & _ & _ & _ & He).
      exact (line_events_word_name _ _ _ He).
    + apply Forall_forall. intros o Ho. specialize (Hevents o Ho).
      apply top_level_events_in in Hevents.
      destruct Hevents as (i & line & Hi & Hnth & _ & He).
      apply line_events_line in He. unfold event_line in He. simpl in He. rewrite He.
      assert (i - 1 < List.length (split newline js_code))
        by (apply nth_error_Some; congruence).
      lia.
Qed.

(** ** A declaration at the start of a line *)

Lemma space_not_word (c : ascii) : is_space c = true -> is_word c = false.
Proof.
  destruct c as [[] [] [] [] [] [] [] []]; vm_compute; intros H;
    first [reflexivity | discriminate H].
Qed.

Lemma decl_here_complete (kw ws name post : string) :
  ws <> EmptyString -> all_chars is_space ws -> maximal_run is_word name post ->
  decl_here kw (kw ++ ws ++ name ++ post) = Some (ws, name).
Proof.
  intros Hws Hspace (Hname & Hword & Hpost). unfold decl_here.
  rewrite strip_prefix_app.
  rewrite (span_run is_space ws (name ++ post) Hspace).
  - destruct ws as [|w ws]; [contradiction|].
    rewrite (span_run is_word name post Hword).
    + destruct name; [contradiction | reflexivity].
    + unfold is_word_at in Hpost. destruct (first_char post); [exact Hpost | exact I].
  - destruct name as [|n name]; [contradiction|]. simpl.
    simpl in Hword. destruct Hword as [Hn _].
    destruct (is_space n) eqn:Hs; [|reflexivity].
    apply space_not_word in Hs. congruence.
Qed.

Lemma finditer_from_unfold (kw : string) (pos : nat) (prev : option ascii)
  (x : ascii) (rest : string) :
  finditer_from kw pos prev 0 (String x rest)
  = if word_boundary prev (Some x) then
      match decl_here kw (String x rest) with
      | Some (ws, name) =>
          let len := String.length kw + String.length ws + String.length name in
          mkMatch pos (pos + len) (kw ++ ws ++ name) [name]
            :: finditer_from kw (S pos) (Some x) (len - 1) rest
      | None => finditer_from kw (S pos) (Some x) 0 rest
      end
    else finditer_from kw (S pos) (Some x) 0 rest.
Proof. reflexivity. Qed.

Lemma finditer_from_skip (kw : string) (x y : string) :
  forall pos prev,
    finditer_from kw pos prev (String.length x) (x ++ y)
    = finditer_from kw (pos + String.length x) (char_before prev x) 0 y.
Proof.
  induction x as [|c x IH]; intros pos prev; simpl.
  - rewrite Nat.add_0_r. reflexivity.
  - rewrite IH. f_equal. lia.
Qed.

(** Where the keyword does not occur, the pattern does not match. *)
Lemma finditer_from_needs_keyword (kw s : string) (pos : nat) (prev : option ascii)
  (skip : nat) :
  find_sub kw s = None -> finditer_from kw pos prev skip s = [].
Proof.
  intros Hnone. destruct (finditer_from kw pos prev skip s) as [|m ms] eqn:Hms;
    [reflexivity|].
  exfalso.
  destruct (finditer_from_shape kw s pos prev skip m) as (pre & ws & name & post & Hs & _).
  - rewrite Hms. left. reflexivity.
  - apply (find_sub_app_some kw pre (ws ++ name ++ post)). rewrite <- Hs. exact Hnone.
Qed.

(** X8: on a line that begins with a keyword, white space and a name that
    no word character follows, and where the keyword does not occur again,
    the pattern has exactly one match, at position 0, and it captures that
    name: of the names of [let a, b, c] only the first one is seen. *)
Theorem declaration_at_line_start (kw ws name post : string) :
  is_word_at (first_char kw) = true ->
  ws <> EmptyString -> all_chars is_space ws ->
  maximal_run is_word name post ->
  occurs kw post = false ->
  finditer kw (kw ++ ws ++ name ++ post)
  = [mkMatch 0 (String.length kw + String.length ws + String.length name)
       (kw ++ ws ++ name) [name]].
Proof.
  intros Hkw Hws Hspace Hrun Hpost.
  pose proof (decl_here_complete kw ws name post Hws Hspace Hrun) as Hhere.
  destruct kw as [|k0 kw']; [discriminate Hkw|]. simpl in Hkw.
  unfold finditer.
  change (String k0 kw' ++ ws ++ name ++ post)
    with (String k0 (kw' ++ ws ++ name ++ post)) in *.
  rewrite finditer_from_unfold.
  unfold word_boundary at 1. simpl is_word_at. rewrite Hkw. simpl xorb.
  rewrite Hhere. cbv zeta. f_equal.
  replace (kw' ++ ws ++ name ++ post) with ((kw' ++ ws ++ name) ++ post)
    by (rewrite !append_assoc; reflexivity).
  replace (String.length (String k0 kw') + String.length ws + String.length name - 1)
    with (String.length (kw' ++ ws ++ name))
    by (rewrite !length_append; simpl; lia).
  rewrite finditer_from_skip.
  apply finditer_from_needs_keyword.
  unfold occurs in Hpost. destruct (find_sub (String k0 kw') post); [discriminate | reflexivity].
Qed.

Lemma declaration_at_line_start_witness :
  finditer "let" "let a, b, c = 0;" = [mkMatch 0 5 "let a" ["a"]].
Proof.
  apply (declaration_at_line_start "let" " " "a" ", b, c = 0;");
    [reflexivity | discriminate | simpl; auto | | reflexivity].
  split; [discriminate | split; [simpl; auto | reflexivity]].
Defined.

(** ** The run, whatever the directory holds *)

Lemma forallb_permutation {A : Type} (p : A -> bool) (xs ys : list A) :
  Permutation xs ys -> forallb p xs = forallb p ys.
Proof.
  induction 1 as [|x xs ys _ IH|x y xs|xs ys zs _ IH1 _ IH2]; simpl.
  - reflexivity.
  - rewrite IH. reflexivity.
  - destruct (p x), (p y); reflexivity.
  - congruence.
Qed.

(** X9: the exit status does not depend on the order in which the
    directory lists its files. *)
Theorem main_ignores_file_order (html_files html_files' : list string) :
  Permutation html_files html_files' ->
  main (Some html_files) = main (Some html_files').
Proof.
  intros Hperm. rewrite !main_returns.
  rewrite (forallb_permutation _ _ _ Hperm). reflexivity.
Qed.

Lemma main_ignores_file_order_witness :
  main (Some ["<script>f(</script>"; "<p>fine</p>"])
  = main (Some ["<p>fine</p>"; "<script>f(</script>"]).
Proof.
  apply main_ignores_file_order. apply perm_swap.
Defined.

(** X10: [main] never ends by an exception of the checkers: it exits with
    status 0 or 1, with 1 when the templates directory does not exist and
    with 0 when the directory holds no HTML file. *)
Theorem main_exit_status (templates : option (list string)) :
  (main templates = Returned 0%Z \/ main templates = Returned 1%Z)
  /\ (templates = None -> main templates = Returned 1%Z)
  /\ (templates = Some [] -> main templates = Returned 0%Z).
Proof.
  split; [|split; intros ->; reflexivity].
  destruct templates as [html_files|]; [|right; reflexivity].
  rewrite main_returns. destruct (forallb document_clean html_files); auto.
Qed.

Lemma main_exit_status_witness :
  main None = Returned 1%Z /\ main (Some []) = Returned 0%Z.
Proof.
  split.
  - exact (proj1 (proj2 (main_exit_status None)) eq_refl).
  - exact (proj2 (proj2 (main_exit_status (Some []))) eq_refl).
Defined.

(** ** The list of errors of a document *)

Lemma filter_tag_block (i j : nat) (errs : list error) :
  filter (tagged_with i) (tag_block j errs) = if Nat.eqb j i then tag_block j errs else [].
Proof.
  unfold tag_block, tagged_with. induction errs as [|e errs IH]; simpl.
  - destruct (Nat.eqb j i); reflexivity.
  - rewrite IH. destruct (Nat.eqb j i); reflexivity.
Qed.

Lemma collected_of_block (scripts : list string) (i : nat) :
  forall start,
    filter (tagged_with i)
      (flat_map (fun numbered : nat * string =>
                   tag_block (fst numbered) (block_defects (snd numbered)))
                (enumerate scripts start))
    = if (start <=? i)%nat then
        match nth_error scripts (i - start) with
        | Some script => tag_block i (block_defects script)
        | None => []
        end
      else [].
Proof.
  induction scripts as [|script rest IH]; intros start; simpl.
  - destruct (start <=? i)%nat; [destruct (i - start)|]; reflexivity.
  - rewrite filter_app, filter_tag_block, IH.
    destruct (Nat.eqb_spec start i) as [->|Hne].
    + rewrite Nat.leb_refl, Nat.sub_diag.
      destruct (Nat.leb_spec (S i) i); [lia|]. simpl. apply app_nil_r.
    + destruct (Nat.leb_spec start i) as [Hle|Hgt].
      * destruct (Nat.leb_spec (S start) i); [|lia].
        replace (i - start) with (S (i - S start)) by lia. reflexivity.
      * destruct (Nat.leb_spec (S start) i); [lia | reflexivity].
Qed.

Lemma constant_sorted (n : nat) (xs : list nat) :
  Forall (fun x => x = n) xs -> StronglySorted le xs.
Proof.
  induction 1 as [|x xs Hx Hall IH]; constructor; [exact IH|].
  eapply Forall_impl; [|exact Hall]. simpl. intros y ->. subst x. constructor.
Qed.

Lemma collected_tags (scripts : list string) :
  forall start,
    let all_errors :=
      flat_map (fun numbered : nat * string =>
                  tag_block (fst numbered) (block_defects (snd numbered)))
               (enumerate scripts start) in
    StronglySorted le (map fst all_errors)
    /\ Forall (fun entry => start <= fst entry < start + List.length scripts) all_errors.
Proof.
  induction scripts as [|script rest IH]; intros start; simpl.
  - split; constructor.
  - destruct (IH (S start)) as [Hs Hb].
    assert (Forall (fun entry : nat * error => fst entry = start)
              (tag_block start (block_defects script))) as Hblock.
    { unfold tag_block. apply Forall_forall. intros entry Hin.
      rewrite in_map_iff in Hin. destruct Hin as (e & <- & _). reflexivity. }
    split.
    + rewrite map_app. apply sorted_app.
      * apply constant_sorted with (n := start).
        apply Forall_forall. intros n Hn. rewrite in_map_iff in Hn.
        destruct Hn as (entry & <- & Hin). rewrite Forall_forall in Hblock.
        exact (Hblock _ Hin).
      * exact Hs.
      * intros x y Hx Hy. rewrite in_map_iff in Hx, Hy.
        destruct Hx as (ex & <- & Hex). destruct Hy as (ey & <- & Hey).
        rewrite Forall_forall in Hblock, Hb.
        rewrite (Hblock _ Hex). specialize (Hb _ Hey). simpl in Hb. lia.
    + apply Forall_app. split.
      * eapply Forall_impl; [|exact Hblock]. simpl. intros entry ->. lia.
      * eapply Forall_impl; [|exact Hb]. simpl. intros entry H. lia.
Qed.

(** X11: the list of errors of a document never raises and is grouped by
    block: its entries carry block numbers from 1 to the number of blocks,
    in increasing order, and the entries with number [i] are the defects of
    block [i], the duplicate declarations before the unbalanced delimiters:
    a defect of one block changes nothing for another. *)
Theorem errors_grouped_by_block (scripts : list string) :
  exists all_errors,
    collect_errors scripts = Returned all_errors
    /\ StronglySorted le (map fst all_errors)
    /\ Forall (fun entry => 1 <= fst entry <= List.length scripts) all_errors
    /\ forall i script,
         1 <= i -> nth_error scripts (i - 1) = Some script ->
         exists dups syns,
           check_duplicate_declarations script = Returned dups
           /\ check_syntax_errors script = Returned syns
           /\ filter (tagged_with i) all_errors = tag_block i (dups ++ syns).
Proof.
  eexists. split; [apply collect_errors_returns|].
  destruct (collected_tags scripts 1) as [Hs Hb].
  split; [exact Hs|]. split.
  - eapply Forall_impl; [|exact Hb]. simpl. intros entry H. lia.
  - intros i script Hi Hnth.
    exists (dup_defects script), (syn_defects script).
    split; [apply check_duplicate_declarations_returns|].
    split; [apply check_syntax_errors_returns|].
    rewrite collected_of_block.
    destruct (Nat.leb_spec 1 i); [|lia]. rewrite Hnth. reflexivity.
Qed.

Lemma errors_grouped_by_block_witness :
  exists all_errors,
    collect_errors ["f("; "let a; let a;"] = Returned all_errors
    /\ filter (tagged_with 2) all_errors
       = [(2, duplicate_error "a" [(1, "let", "let a; let a;"); (1, "let", "let a; let a;")])].
Proof.
  destruct (errors_grouped_by_block ["f("; "let a; let a;"])
    as (all_errors & Hrun & _ & _ & Hblock).
  exists all_errors. split; [exact Hrun|].
  destruct (Hblock 2 "let a; let a;" ltac:(lia) eq_refl)
    as (dups & syns & Hd & Hs & ->).
  vm_compute in Hd, Hs. injection Hd as <-. injection Hs as <-. reflexivity.
Defined.

(** X12: a document that is one script element, with anything but [<]
    before it and no closing tag after it, is valid exactly when the two
    checkers find nothing in the body of the element. *)
Theorem single_block_document (pre attrs body post : string) :
  all_chars (other_than "<") pre ->
  all_chars (other_than ">") attrs ->
  occurs "</script>" body = false ->
  occurs "</script>" post = false ->
  exists valid,
    validate_html_file
      (pre ++ "<script" ++ attrs ++ ">" ++ body ++ "</script>" ++ post)
    = Returned valid
    /\ (valid = true
        <-> check_duplicate_declarations body = Returned []
            /\ check_syntax_errors body = Returned []).
Proof.
  unfold occurs. intros Hpre Hattrs Hbody Hpost.
  destruct (find_sub "</script>" body) eqn:Hfb; [discriminate|].
  destruct (find_sub "</script>" post) eqn:Hfp; [discriminate|].
  eexists. split; [apply validate_html_file_returns|].
  unfold document_clean, extract_javascript_from_html.
  rewrite (findall_scripts_no_tag _ _ Hpre), (extract_wrapped _ _ _ Hattrs Hfb),
    (findall_scripts_needs_closing_tag _ Hfp).
  simpl. rewrite andb_true_r. apply block_clean_iff.
Qed.

Lemma single_block_document_witness :
  validate_html_file "<script>let a = [1, 2];</script>" = Returned true.
Proof.
  destruct (single_block_document "" "" "let a = [1, 2];" "" I I eq_refl eq_refl)
    as (valid & Hrun & Hvalid).
  change (validate_html_file "<script>let a = [1, 2];</script>" = Returned valid) in Hrun.
  rewrite Hrun. f_equal. apply Hvalid. split; reflexivity.
Defined.

(** ** Text without keywords and delimiters *)

Lemma split_head_prefix (sep : ascii) (s : string) :
  forall first others, split sep s = first :: others -> exists b, s = first ++ b.
Proof.
  induction s as [|x s IH]; intros first others; simpl.
  - intros [= <- <-]. exists EmptyString. reflexivity.
  - destruct (Ascii.eqb x sep).
    + intros [= <- <-]. exists (String x s). reflexivity.
    + destruct (split sep s) as [|f o] eqn:Hs.
      * intros [= <- <-]. exfalso. exact (split_nonempty sep s Hs).
      * intros [= <- <-]. destruct (IH _ _ eq_refl) as [b Hb].
        exists b. simpl. rewrite <- Hb. reflexivity.
Qed.

(** A line of the text is a piece of the text. *)
Lemma split_substring (sep : ascii) (s : string) :
  forall line, In line (split sep s) -> exists a b, s = a ++ line ++ b.
Proof.
  induction s as [|x s IH]; intros line; simpl.
  - intros [<-|[]]. exists EmptyString, EmptyString. reflexivity.
  - destruct (Ascii.eqb x sep).
    + intros [<-|Hin].
      * exists EmptyString, (String x s). reflexivity.
      * destruct (IH _ Hin) as (a & b & Hab). exists (String x a), b.
        simpl. rewrite <- Hab. reflexivity.
    + destruct (split sep s) as [|f o] eqn:Hs.
      * exfalso. exact (split_nonempty sep s Hs).
      * intros [<-|Hin].
        -- destruct (split_head_prefix sep s f o Hs) as [b Hb].
           exists EmptyString, b. simpl. rewrite <- Hb. reflexivity.
        -- destruct (IH line (or_intror Hin)) as (a & b & Hab).
           exists (String x a), b. simpl. rewrite <- Hab. reflexivity.
Qed.

Lemma find_sub_none_piece (needle a line b : string) :
  find_sub needle (a ++ line ++ b) = None -> find_sub needle line = None.
Proof.
  intros Hnone. apply find_sub_none_tail in Hnone.
  destruct (find_sub needle line) as [[p q]|] eqn:Hl; [|reflexivity].
  exfalso. apply find_sub_some in Hl. subst line.
  apply (find_sub_app_some needle p (q ++ b)).
  rewrite <- Hnone. f_equal. rewrite !append_assoc. reflexivity.
Qed.

Lemma no_keyword_no_events (js_code : string) :
  (forall p, In p patterns -> find_sub (fst p) js_code = None) ->
  top_level_events (split newline js_code) = [].
Proof.
  intros Hnone. unfold top_level_events.
  destruct (flat_map _ (enumerate (split newline js_code) 1)) as [|e es] eqn:Hev;
    [reflexivity|].
  exfalso.
  assert (In e (top_level_events (split newline js_code))) as Hin
      by (unfold top_level_events; rewrite Hev; left; reflexivity).
  apply top_level_events_in in Hin. destruct Hin as (i & line & _ & Hnth & _ & Hline).
  apply nth_error_In in Hnth. apply split_substring in Hnth.
  destruct Hnth as (a & b & Hab).
  unfold line_events in Hline. rewrite in_flat_map in Hline.
  destruct Hline as (p & Hp & Hin). rewrite in_map_iff in Hin.
  destruct Hin as (name & _ & Hname). rewrite in_flat_map in Hname.
  destruct Hname as (m & Hm & _).
  specialize (Hnone p Hp). rewrite Hab in Hnone. apply find_sub_none_piece in Hnone.
  unfold finditer in Hm.
  rewrite (finditer_from_needs_keyword _ _ _ _ _ Hnone) in Hm. contradiction.
Qed.

Lemma count_not_delimiter (c : ascii) (s : string) :
  is_delimiter c = true -> all_chars not_delimiter s -> count c s = 0%Z.
Proof.
  intros Hc. induction s as [|x s IH]; simpl; [reflexivity|].
  intros [Hx Hall]. rewrite (IH Hall).
  destruct (Ascii.eqb_spec x c) as [->|]; [|reflexivity].
  unfold not_delimiter in Hx. rewrite Hc in Hx. discriminate.
Qed.

(** X13: a text in which none of [let], [const], [var] occurs has no
    duplicate-declaration defect, and a text without any of the six
    delimiter characters has no unbalanced-delimiter defect. *)
Theorem plain_text_is_clean (js_code : string) :
  (occurs "let" js_code = false /\ occurs "const" js_code = false
   /\ occurs "var" js_code = false ->
   check_duplicate_declarations js_code = Returned [])
  /\ (all_chars not_delimiter js_code -> check_syntax_errors js_code = Returned []).
Proof.
  split.
  - unfold occurs. intros (Hlet & Hconst & Hvar).
    rewrite check_duplicate_declarations_returns. unfold dup_defects.
    rewrite no_keyword_no_events; [reflexivity|].
    intros p [<-|[<-|[<-|[]]]]; simpl fst.
    + destruct (find_sub "let" js_code); [discriminate | reflexivity].
    + destruct (find_sub "const" js_code); [discriminate | reflexivity].
    + destruct (find_sub "var" js_code); [discriminate | reflexivity].
  - intros Hall. unfold check_syntax_errors.
    rewrite (count_not_delimiter "{" _ eq_refl Hall), (count_not_delimiter "}" _ eq_refl Hall),
      (count_not_delimiter "(" _ eq_refl Hall), (count_not_delimiter ")" _ eq_refl Hall),
      (count_not_delimiter "[" _ eq_refl Hall), (count_not_delimiter "]" _ eq_refl Hall).
    reflexivity.
Qed.

Lemma plain_text_is_clean_witness :
  check_duplicate_declarations "x = y + 1;" = Returned []
  /\ check_syntax_errors "x = y + 1;" = Returned [].
Proof.
  destruct (plain_text_is_clean "x = y + 1;") as [Hdup Hsyn]. split.
  - apply Hdup. repeat split; reflexivity.
  - apply Hsyn. simpl. repeat split; reflexivity.
Defined.

(** * The pre-commit linter *)

Lemma endswith_spec (s suffix : string) :
  LintChanges.endswith s suffix = true <-> exists stem, s = stem ++ suffix.
Proof.
  induction s as [|c s IH]; cbn [LintChanges.endswith].
  - rewrite orb_false_r. split.
    + intros H. apply String.eqb_eq in H. exists EmptyString. exact H.
    + intros [stem H]. destruct stem; [|discriminate]. simpl in H. subst suffix. reflexivity.
  - rewrite orb_true_iff, IH. split.
    + intros [H|[stem H]].
      * apply String.eqb_eq in H. exists EmptyString. exact H.
      * exists (String c stem). simpl. rewrite H. reflexivity.
    + intros [stem H]. destruct stem as [|c' stem]; simpl in H.
      * left. subst suffix. apply String.eqb_refl.
      * right. injection H as _ H. exists stem. exact H.
Qed.

Lemma split_no_separator (sep : ascii) (s : string) :
  Forall (fun line => count sep line = 0%Z) (split sep s).
Proof.
  induction s as [|x s IH]; simpl.
  - repeat constructor.
  - destruct (Ascii.eqb x sep) eqn:Hx.
    + constructor; [reflexivity | exact IH].
    + pose proof (split_nonempty sep s) as Hne.
      destruct (split sep s) as [|first others]; [contradiction|].
      inversion IH as [|f o Hfirst Hothers]; subst.
      constructor; [|exact Hothers]. simpl. rewrite Hx, Hfirst. reflexivity.
Qed.

(** X14: the syntax check of the linter passes a file exactly when reading
    and parsing it raise nothing; an indentation error is caught by the
    handler of [SyntaxError], which comes first, and is reported as
    [SyntaxError at line ...]: no message begins with [IndentationError]. *)
Theorem indentation_error_reported_as_syntax_error (parsed : LintChanges.attempt unit) :
  (fst (LintChanges.check_python_syntax parsed) = true <-> parsed = LintChanges.Done tt)
  /\ (forall e,
         parsed = LintChanges.Threw e ->
         LintChanges.isinstance e LintChanges.IndentationError = true ->
         LintChanges.check_python_syntax parsed
         = (false, Some ("SyntaxError at line "
                         ++ LintChanges.format_lineno (LintChanges.lineno e) ++ ": "
                         ++ LintChanges.msg e)))
  /\ (forall text,
         snd (LintChanges.check_python_syntax parsed) = Some text ->
         strip_prefix "IndentationError" text = None).
Proof.
  split; [|split].
  - destruct parsed as [[]|e]; simpl.
    + tauto.
    + split; [|discriminate].
      destruct e as [[] n m s]; simpl; discriminate.
  - intros e -> He. simpl.
    destruct e as [[] n m s]; simpl in *; try discriminate; reflexivity.
  - intros text. destruct parsed as [[]|e]; [discriminate|].
    destruct e as [[] n m s]; simpl; intros [= <-]; reflexivity.
Qed.

Lemma indentation_error_reported_as_syntax_error_witness :
  LintChanges.check_python_syntax
    (LintChanges.Threw
       (LintChanges.mkException LintChanges.IndentationError (Some 3)
          "unexpected indent" "unexpected indent (a.py, line 3)"))
  = (false, Some "SyntaxError at line 3: unexpected indent").
Proof.
  exact (proj1 (proj2 (indentation_error_reported_as_syntax_error
                         (LintChanges.Threw
                            (LintChanges.mkException LintChanges.IndentationError (Some 3)
                               "unexpected indent" "unexpected indent (a.py, line 3)"))))
           _ eq_refl eq_refl).
Defined.

(** X15: the staged files the linter checks are lines of the trimmed output
    of [git diff], each a name that ends with [.py], so none is empty and
    none holds a line break; when [git] cannot be run there is none. *)
Theorem staged_files_are_python_files (ran : LintChanges.attempt LintChanges.completed_process) :
  Forall (fun f =>
            (exists stem, f = stem ++ ".py")
            /\ f <> EmptyString
            /\ count newline f = 0%Z
            /\ exists result,
                 ran = LintChanges.Done result
                 /\ In f (split newline (strip (LintChanges.stdout result))))
         (LintChanges.get_staged_files ran)
  /\ (forall e, ran = LintChanges.Threw e -> LintChanges.get_staged_files ran = [])
  /\ (forall result,
         ran = LintChanges.Done result ->
         LintChanges.get_staged_files ran
         = filter (fun f => LintChanges.endswith f ".py")
                  (split newline (strip (LintChanges.stdout result)))).
Proof.
  split; [|split].
  - destruct ran as [result|e]; simpl; [|constructor].
    apply Forall_forall. intros f Hin. apply filter_In in Hin.
    destruct Hin as [Hin Hf]. apply andb_true_iff in Hf. destruct Hf as [Hpy Hne].
    split; [apply endswith_spec; exact Hpy|].
    split; [destruct f; [discriminate Hne | discriminate]|].
    split.
    + pose proof (split_no_separator newline (strip (LintChanges.stdout result))) as Hall.
      rewrite Forall_forall in Hall. exact (Hall f Hin).
    + exists result. auto.
  - intros e ->. reflexivity.
  - intros result ->. simpl. apply filter_ext. intros f.
    destruct f as [|c f]; [reflexivity|]. apply andb_true_r.
Qed.

Lemma staged_files_are_python_files_witness :
  LintChanges.get_staged_files
    (LintChanges.Done (LintChanges.mkCompleted 0 "app/main.py
README.md
tests/test_main.py
" ""))
  = ["app/main.py"; "tests/test_main.py"].
Proof.
  rewrite (proj2 (proj2 (staged_files_are_python_files _)) _ eq_refl). reflexivity.
Defined.

Section LintMain.

Variable cross_mark : string.
Variable w : LintChanges.world.






End LintMain.


(** * Text that grows *)

Lemma split_app_newline (sep : ascii) (a b : string) :
  split sep (a ++ String sep b) = (split sep a ++ split sep b)%list.
Proof.
  induction a as [|x a IH]; simpl.
  - rewrite Ascii.eqb_refl. reflexivity.
  - rewrite IH. destruct (Ascii.eqb x sep); [reflexivity|].
    pose proof (split_nonempty sep a) as Hne.
    destruct (split sep a); [contradiction | reflexivity].
Qed.

Lemma enumerate_app {A : Type} (xs ys : list A) :
  forall start,
    enumerate (xs ++ ys) start
    = (enumerate xs start ++ enumerate ys (start + List.length xs))%list.
Proof.
  induction xs as [|x xs IH]; intros start; simpl.
  - rewrite Nat.add_0_r. reflexivity.
  - rewrite IH. do 3 f_equal. lia.
Qed.

Lemma flat_map_ext_in {A B : Type} (f g : A -> list B) (xs : list A) :
  (forall x, In x xs -> f x = g x) -> flat_map f xs = flat_map g xs.
Proof.
  induction xs as [|x xs IH]; intros Hext; simpl; [reflexivity|].
  rewrite (Hext x (or_introl eq_refl)), IH; [reflexivity|].
  intros y Hy. apply Hext. right. exact Hy.
Qed.

Lemma depth_before_app (xs ys : list string) (i : nat) :
  i <= List.length xs -> depth_before (xs ++ ys)%list i = depth_before xs i.
Proof.
  intros Hi. unfold depth_before. rewrite firstn_app.
  replace (i - 1 - List.length xs) with 0 by lia. simpl. rewrite app_nil_r. reflexivity.
Qed.

(** The events of a text are the first events of the text with lines added. *)
Lemma top_level_events_app (xs ys : list string) :
  exists more, top_level_events (xs ++ ys)%list = (top_level_events xs ++ more)%list.
Proof.
  unfold top_level_events. rewrite enumerate_app, flat_map_app.
  eexists. f_equal. apply flat_map_ext_in. intros [i line] Hin. simpl.
  apply enumerate_in in Hin. destruct Hin as [Hi Hnth].
  assert (i - 1 < List.length xs) by (apply nth_error_Some; congruence).
  rewrite depth_before_app by lia. reflexivity.
Qed.

Lemma occurrences_of_app (name : string) (xs ys : list event) :
  occurrences_of name (xs ++ ys)%list
  = (occurrences_of name xs ++ occurrences_of name ys)%list.
Proof. unfold occurrences_of. rewrite filter_app, map_app. reflexivity. Qed.

(** X17: lines added after a text take no defect away: an identifier
    reported for the text is reported for the longer text, with the same
    occurrences first and those of the added lines after them. *)
Theorem added_lines_keep_defects (js_code added : string) :
  exists errs errs',
    check_duplicate_declarations js_code = Returned errs
    /\ check_duplicate_declarations (js_code ++ String newline added) = Returned errs'
    /\ Forall (fun e =>
                 exists name occs more,
                   e = duplicate_error name occs
                   /\ In (duplicate_error name (occs ++ more)%list) errs') errs.
Proof.
  exists (dup_defects js_code), (dup_defects (js_code ++ String newline added)).
  split; [apply check_duplicate_declarations_returns|].
  split; [apply check_duplicate_declarations_returns|].
  apply Forall_forall. intros e He. unfold dup_defects in *.
  apply duplicate_errors_in in He. destruct He as (name & occs & Hin & Hlen & ->).
  apply in_lookup in Hin; [|apply keys_index_events_nodup; constructor].
  rewrite lookup_scan in Hin.
  rewrite split_app_newline.
  destruct (top_level_events_app (split newline js_code) (split newline added))
    as [more Hmore].
  rewrite Hmore.
  exists name, occs, (occurrences_of name more). split; [reflexivity|].
  apply duplicate_errors_in.
  exists name, (occs ++ occurrences_of name more)%list.
  split; [|split; [rewrite length_app; lia | reflexivity]].
  apply lookup_in. rewrite lookup_scan, occurrences_of_app.
  destruct (occurrences_of name (top_level_events (split newline js_code))) as [|o os];
    [discriminate|].
  injection Hin as <-. reflexivity.
Qed.
